(** * gi_simulation: the widget logic of [gisimulation/mainGUI.py]

    A shallow embedding of the input widgets, the distance panel, the
    input-file reader and the component-chain handlers of the GUI module,
    with the properties the specification states about them.

    Python [str] values are Rocq strings (one byte per character, as in
    the Python 2 source), Python lists are lists, dictionaries with string
    keys are [gmap string _], and handlers that mutate the application
    object are functions from the relevant part of its state to the new
    state.  A handler that can raise ends in an [outcome]: it returned,
    or it raised with the state it had reached; where only an index or a
    key can be missing, [None] stands for the exception.

    The model comes first, module by module; the properties follow. *)

From Stdlib Require Import Ascii String.
From stdpp Require Import base option list strings gmap sorting.

Local Open Scope string_scope.
Local Open Scope list_scope.

(** ** Python string primitives *)

Module PyStr.

(** [c in '0123456789'], the complement of the class [[^0-9]]. *)
Definition is_digit (c : ascii) : bool :=
  let n := nat_of_ascii c in (48 <=? n)%nat && (n <=? 57)%nat.

(** [str.lower()] on one byte: only ['A'..'Z'] change. *)
Definition lower_char (c : ascii) : ascii :=
  let n := nat_of_ascii c in
  if (65 <=? n)%nat && (n <=? 90)%nat then ascii_of_nat (n + 32) else c.

(** [s.lower()] *)
Fixpoint lower (s : string) : string :=
  match s with
  | EmptyString => EmptyString
  | String c r => String (lower_char c) (lower r)
  end.

(** [s[:n]] *)
Fixpoint take (n : nat) (s : string) : string :=
  match n, s with
  | S n', String c r => String c (take n' r)
  | _, _ => EmptyString
  end.

(** [s[n:]] *)
Fixpoint drop (n : nat) (s : string) : string :=
  match n, s with
  | S n', String _ r => drop n' r
  | _, _ => s
  end.

(** [hay.startswith(needle)] *)
Fixpoint startswith (needle hay : string) : bool :=
  match needle, hay with
  | EmptyString, _ => true
  | String a n', String b h' => Ascii.eqb a b && startswith n' h'
  | String _ _, EmptyString => false
  end.

(** [needle in hay] for strings: substring search. *)
Fixpoint contains (needle hay : string) : bool :=
  startswith needle hay ||
  match hay with
  | EmptyString => false
  | String _ r => contains needle r
  end.

(** Number of occurrences of the byte [c] in [s]. *)
Fixpoint count (c : ascii) (s : string) : nat :=
  match s with
  | EmptyString => 0
  | String d r => (if Ascii.eqb d c then 1 else 0) + count c r
  end.

(** Every byte of [s] satisfies [p]. *)
Fixpoint all (p : ascii -> bool) (s : string) : bool :=
  match s with
  | EmptyString => true
  | String c r => p c && all p r
  end.

(** [s.split(sep, 1)] for a one-byte separator: at most one cut, at the
    first occurrence. *)
Fixpoint split1 (sep : ascii) (s : string) : list string :=
  match s with
  | EmptyString => [EmptyString]
  | String c r =>
      if Ascii.eqb c sep then [EmptyString; r]
      else match split1 sep r with
           | h :: t => String c h :: t
           | [] => [String c EmptyString]
           end
  end.

(** [str.strip()]: the bytes Python 2 treats as white space. *)
Definition is_space (c : ascii) : bool :=
  let n := nat_of_ascii c in
  (n =? 32)%nat || ((9 <=? n)%nat && (n <=? 13)%nat).

Fixpoint lstrip (s : string) : string :=
  match s with
  | EmptyString => EmptyString
  | String c r => if is_space c then lstrip r else s
  end.

Fixpoint rstrip (s : string) : string :=
  match s with
  | EmptyString => EmptyString
  | String c r =>
      match rstrip r with
      | EmptyString => if is_space c then EmptyString else String c EmptyString
      | r' => String c r'
      end
  end.

Definition strip (s : string) : string := rstrip (lstrip s).

End PyStr.

(** ** [FloatInput]: the text input that only accepts positive floats *)

Module FloatInput.
Import PyStr.

(** The part of a [TextInput] that [insert_text] reads and writes: its
    text and the cursor column. *)
Record widget : Type := Widget { text : string; cursor : nat }.

(** [re.sub(pattern, '', s)] with [pattern = re.compile('[^0-9]')]:
    every byte that is not a decimal digit is dropped. *)
Fixpoint re_sub_pattern (s : string) : string :=
  match s with
  | EmptyString => EmptyString
  | String c r =>
      if is_digit c then String c (re_sub_pattern r) else re_sub_pattern r
  end.

(** [TextInput.insert_text] of the toolkit: the substring goes into the
    text at the cursor, which moves behind it. *)
Definition super_insert_text (s : string) (w : widget) : widget :=
  {| text := take (cursor w) (text w) +:+ s +:+ drop (cursor w) (text w);
     cursor := cursor w + String.length s |}.

(** [FloatInput.insert_text(self, substring)] *)
Definition insert_text (substring : string) (w : widget) : widget :=
  let s :=
    if contains "." (text w) then re_sub_pattern substring
    else String.concat "." (map re_sub_pattern (split1 "." substring)) in
  super_insert_text s w.

(** The bytes a float text may hold. *)
Definition float_char (c : ascii) : bool := is_digit c || Ascii.eqb c ".".

(** Only ['0'..'9'] and ['.'], and at most one ['.']. *)
Definition float_text (t : string) : bool :=
  all float_char t && (count "." t <=? 1)%nat.

End FloatInput.

(** ** [Distances]: the panel of distance inputs *)

Module Distances.
Import PyStr.

(** Height of one line of the panel, in pixels. *)
Definition LINE_HEIGHT : Z := 35.

(** A [FloatInput] of the panel: its id, its text and whether it is
    disabled.  A new widget has an empty text and is enabled. *)
Record float_input : Type :=
  FloatInput { id : string; text : string; disabled : bool }.

Definition new_float_input (i : string) : float_input :=
  {| id := i; text := ""; disabled := false |}.

Definition set_disabled (b : bool) (w : float_input) : float_input :=
  {| id := id w; text := text w; disabled := b |}.

Definition set_text (t : string) (w : float_input) : float_input :=
  {| id := id w; text := t; disabled := disabled w |}.

(** One [BoxLayout] of the panel: a label and its input. *)
Record container : Type :=
  Container { label : string; value : float_input }.

(** The panel after [update]: the containers in the order they were
    added; the text observers set up with [bind], as pairs (id of the
    observed input, id of the input handed to [on_text] as
    [linked_instance]); and the height. *)
Record panel : Type :=
  Panel { added : list container;
          bound : list (string * string);
          height : Z }.

(** [list.remove(x)] when [x] is known to be in the list: the first
    occurrence goes. *)
Fixpoint remove_first (x : string) (l : list string) : list string :=
  match l with
  | [] => []
  | y :: r => if String.eqb y x then r else y :: remove_first x r
  end.

(** ["distance_{0}_{1}".format(a.lower(), b.lower())] *)
Definition distance_id_of (a b : string) : string :=
  "distance_" +:+ lower a +:+ "_" +:+ lower b.

(** ["Distance from {0} to {1} [mm]".format(a, b)] *)
Definition distance_text_of (a b : string) : string :=
  "Distance from " +:+ a +:+ " to " +:+ b +:+ " [mm]".

(** The component list [update] works on after its first two statements:
    the sample is taken out, and a parallel beam outside the free geometry
    keeps the two gratings only. *)
Definition relevant_components
    (component_list : list string) (beam_geometry gi_geometry : string)
  : list string :=
  let component_list :=
    if bool_decide ("Sample" ∈ component_list)
    then remove_first "Sample" component_list else component_list in
  if String.eqb beam_geometry "parallel" && negb (String.eqb gi_geometry "free")
  then ["G1"; "G2"] else component_list.

(** The input of one adjacent pair, with the "just to show results"
    block applied. *)
Definition distance_value_of
    (dual_phase : bool) (beam_geometry gi_geometry distance_id : string)
  : float_input :=
  let distance_value := new_float_input distance_id in
  if String.eqb beam_geometry "parallel" && negb (String.eqb gi_geometry "free")
  then set_disabled true distance_value
  else if String.eqb beam_geometry "cone" && negb (String.eqb gi_geometry "free")
  then
    let distance_value :=
      if String.eqb distance_id "distance_g1_g2" then
        if negb dual_phase then set_disabled true distance_value
        else distance_value
      else distance_value in
    if String.eqb gi_geometry "sym" then
      if String.eqb distance_id "distance_source_g1"
         || String.eqb distance_id "distance_g0_g1"
      then set_disabled true distance_value
      else distance_value
    else distance_value
  else distance_value.

(** The condition under which the loop adds the extra line for the
    upstream-to-G2 distance. *)
Definition has_extra (gi_geometry distance_id : string) : bool :=
  (String.eqb distance_id "distance_source_g1"
   || String.eqb distance_id "distance_g0_g1")
  && (String.eqb gi_geometry "conv" || String.eqb gi_geometry "inv").

Definition extra_container (distance_id : string) : container :=
  if String.eqb distance_id "distance_source_g1"
  then {| label := "Distance from Source to G2 [mm]";
          value := new_float_input "distance_source_g2" |}
  else {| label := "Distance from G0 to G2 [mm]";
          value := new_float_input "distance_g0_g2" |}.

(** The loop over [enumerate(component_list[:-1])]: one container per
    adjacent pair, followed by the extra container where it applies.  The
    result lists the containers added, the observers bound and whether an
    extra line was added. *)
Fixpoint update_loop
    (dual_phase : bool) (beam_geometry gi_geometry : string)
    (component_list : list string)
  : list container * list (string * string) * bool :=
  match component_list with
  | component :: ((next :: _) as rest) =>
      let distance_id := distance_id_of component next in
      let distance_container :=
        {| label := distance_text_of component next;
           value := distance_value_of dual_phase beam_geometry gi_geometry
                      distance_id |} in
      let '(cs, bs, extra) :=
        update_loop dual_phase beam_geometry gi_geometry rest in
      if has_extra gi_geometry distance_id then
        let e := extra_container distance_id in
        (distance_container :: e :: cs,
         (distance_id, id (value e)) :: (id (value e), distance_id) :: bs,
         true)
      else (distance_container :: cs, bs, extra)
  | _ => ([], [], false)
  end.

(** [Distances.update(component_list, dual_phase, beam_geometry,
    gi_geometry)].  The second component of the result is the caller's
    list object afterwards: [update] removes the sample from it in place. *)
Definition update
    (component_list : list string) (dual_phase : bool)
    (beam_geometry gi_geometry : string)
  : panel * list string :=
  let caller_list :=
    if bool_decide ("Sample" ∈ component_list)
    then remove_first "Sample" component_list else component_list in
  let component_list :=
    relevant_components component_list beam_geometry gi_geometry in
  let '(cs, bs, extra) :=
    update_loop dual_phase beam_geometry gi_geometry component_list in
  let height :=
    if extra then (Z.of_nat (length component_list) * LINE_HEIGHT)%Z
    else ((Z.of_nat (length component_list) - 1) * LINE_HEIGHT)%Z in
  ({| added := cs; bound := bs; height := height |}, caller_list).

(** The inputs of a panel. *)
Definition inputs (p : panel) : list float_input := map value (added p).

(** An input takes what the user types only while it is enabled. *)
Definition accepts_user_input (w : float_input) : bool := negb (disabled w).

(** *** The linked pair and [on_text] *)

(** The two inputs bound to each other by [update], and the panel's
    [distance_fixed] flag that [on_text] shares between them. *)
Inductive side : Type := Near | Far.

Definition other (s : side) : side :=
  match s with Near => Far | Far => Near end.

Record linked_pair : Type :=
  LinkedPair { near : float_input; far : float_input; distance_fixed : bool }.

Definition get (s : side) (p : linked_pair) : float_input :=
  match s with Near => near p | Far => far p end.

Definition put (s : side) (w : float_input) (p : linked_pair) : linked_pair :=
  match s with
  | Near => {| near := w; far := far p; distance_fixed := distance_fixed p |}
  | Far => {| near := near p; far := w; distance_fixed := distance_fixed p |}
  end.

Definition put_fixed (b : bool) (p : linked_pair) : linked_pair :=
  {| near := near p; far := far p; distance_fixed := b |}.

(** [Distances.on_text(self, linked_instance, instance, value)].  The
    assignment [linked_instance.text = ''] goes through [assign], the
    property setter, because the linked input has an observer of its own. *)
Definition on_text
    (assign : side -> string -> linked_pair -> linked_pair)
    (linked_instance instance : side) (value : string) (p : linked_pair)
  : linked_pair :=
  if negb (String.eqb value "") then
    let p :=
      if negb (distance_fixed p) then
        assign linked_instance ""
          (put linked_instance (set_disabled true (get linked_instance p)) p)
      else p in
    if negb (String.eqb (text (get linked_instance p)) "") then
      if distance_fixed p then
        let p := put linked_instance
                   (set_disabled false (get linked_instance p)) p in
        let p := put instance (set_disabled false (get instance p)) p in
        put_fixed false p
      else p
    else
      let p := put linked_instance
                 (set_disabled true (get linked_instance p)) p in
      put_fixed true p
  else put linked_instance (set_disabled false (get linked_instance p)) p.

(** Setting the [text] property of one input of the pair: nothing happens
    when the value is the one it has; otherwise the value is stored and
    the observer bound in [update] runs, with the other input as
    [linked_instance].  [fuel] bounds the depth of observers setting texts
    in turn. *)
Fixpoint assign_text
    (fuel : nat) (s : side) (v : string) (p : linked_pair) : linked_pair :=
  if String.eqb (text (get s p)) v then p
  else
    let p := put s (set_text v (get s p)) p in
    match fuel with
    | O => p
    | S fuel' => on_text (assign_text fuel') (other s) s v p
    end.

(** A text event on one input: two levels of observers are all that ever
    run (see [assign_text_fuel]). *)
Definition text_event (s : side) (v : string) (p : linked_pair) : linked_pair :=
  assign_text 2 s v p.

(** A pair as [update] creates it: both inputs empty and enabled; the
    flag keeps the value it had. *)
Definition fresh_pair (near_id far_id : string) (fixed : bool) : linked_pair :=
  {| near := new_float_input near_id; far := new_float_input far_id;
     distance_fixed := fixed |}.

Definition has_text (s : side) (p : linked_pair) : bool :=
  negb (String.eqb (text (get s p)) "").

(** At most one of the two inputs holds a value. *)
Definition at_most_one_text (p : linked_pair) : bool :=
  negb (has_text Near p && has_text Far p).

(** Both inputs hold a value, as after results were written into them:
    both are enabled and the flag is down. *)
Definition both_populated (p : linked_pair) : bool :=
  has_text Near p && has_text Far p
  && negb (disabled (near p)) && negb (disabled (far p))
  && negb (distance_fixed p).

Definition pair_invariant (p : linked_pair) : bool :=
  at_most_one_text p || both_populated p.

(** Starting from a pair as [update] creates it, events on enabled inputs
    (what a user can do) never leave both inputs with a value. *)
Inductive user_reachable (near_id far_id : string) : linked_pair -> Prop :=
| reach_fresh fixed :
    user_reachable near_id far_id (fresh_pair near_id far_id fixed)
| reach_event p s v :
    user_reachable near_id far_id p ->
    disabled (get s p) = false ->
    user_reachable near_id far_id (text_event s v p).

End Distances.

(** ** [_load_input_file]: keys and values of an input file *)

Module InputFile.

(** What the reader stores under a key: the string ['True'] for a flag,
    the list of value lines otherwise. *)
Inductive value : Type :=
| Str (s : string)
| Lines (l : list string).

(** [l[i:j]] for indices inside the list or just behind it. *)
Definition slice {A : Type} (i j : nat) (l : list A) : list A :=
  take (j - i) (drop i l).

(** [[i for i, str_ in enumerate(input_lines) if '-' in str_]], counting
    from [start]. *)
Fixpoint key_indices_from (start : nat) (input_lines : list string) : list nat :=
  match input_lines with
  | [] => []
  | str_ :: rest =>
      if PyStr.contains "-" str_
      then start :: key_indices_from (S start) rest
      else key_indices_from (S start) rest
  end.

Definition key_indices (input_lines : list string) : list nat :=
  key_indices_from 0 input_lines.

(** The loop over [enumerate(key_indices[:-1])]; [key_indices] already
    carries the length of the list as its last entry.  An index outside
    the list would raise [IndexError]: the result is [None] then. *)
Fixpoint store_keys
    (input_lines : list string) (key_indices : list nat)
    (input_parameters : gmap string value) : option (gmap string value) :=
  match key_indices with
  | key_index :: ((next_key_index :: _) as rest) =>
      match input_lines !! key_index with
      | None => None
      | Some key =>
          let value :=
            if PyStr.contains "--" key then Str "True"
            else Lines (slice (key_index + 1) next_key_index input_lines) in
          store_keys input_lines rest (<[key := value]> input_parameters)
      end
  | _ => Some input_parameters
  end.

(** [_load_input_file], from the lines [f.readlines()] returned. *)
Definition _load_input_file
    (file_lines : list string) (input_parameters : gmap string value)
  : option (gmap string value) :=
  let input_lines := map PyStr.strip file_lines in
  let key_indices := key_indices input_lines ++ [length input_lines] in
  store_keys input_lines key_indices input_parameters.

(** A line without ['-']. *)
Definition no_dash (l : string) : Prop := PyStr.contains "-" l = false.

(** The same reading, told line by line: a line with ['-'] is a key; a
    flag (['--']) gets ['True'], any other key gets the lines that follow
    it up to the next line with ['-']. *)
Fixpoint values_after (rest : list string) : list string :=
  match rest with
  | [] => []
  | l :: rest' => if PyStr.contains "-" l then [] else l :: values_after rest'
  end.

Fixpoint assignments (input_lines : list string) : list (string * value) :=
  match input_lines with
  | [] => []
  | key :: rest =>
      if PyStr.contains "-" key then
        (key, if PyStr.contains "--" key then Str "True"
              else Lines (values_after rest))
        :: assignments rest
      else assignments rest
  end.

(** [d[k] = v] for each pair, in order. *)
Definition store_all
    (kvs : list (string * value)) (d : gmap string value) : gmap string value :=
  foldl (fun d kv => <[kv.1 := kv.2]> d) d kvs.

End InputFile.

(** ** [giGUI]: results, component chain and sample *)

Module GiGUI.

(** The exceptions the handlers below can end in. *)
Inductive exception : Type :=
| ValueError
| IndexError.

(** How a handler ends: it returns, or it raises with the application
    object in the state it had reached. *)
Inductive outcome (A : Type) : Type :=
| Returned (st : A)
| Raised (e : exception) (st : A).
Arguments Returned {A} st.
Arguments Raised {A} e st.

Definition state_of {A : Type} (o : outcome A) : A :=
  match o with Returned st => st | Raised _ st => st end.

(** *** [calculate_geometry] *)

Section Calculate.

(** The values the parameter and result dictionaries hold. *)
Context {value : Type}.

(** [self.results]: the dictionaries under ['input'] and ['geometry']. *)
Record results : Type :=
  Results { input : gmap string value; geometry : gmap string value }.

(** The part of the application object [calculate_geometry] works on. *)
Record calc_state : Type :=
  CalcState { parameters : gmap string value;
              current : results;
              previous_results : results }.

(** What a call made by [calculate_geometry] may end in:
    [geometry.GeometryError] with its message, or any other exception. *)
Inductive raised : Type :=
| GeometryError (msg : string)
| OtherException.

(** The object [geometry.Geometry(parameters)] gives: its [results], and
    what [update_parameters()] does, which is to raise or to give the
    updated parameters. *)
Record geometry_object : Type :=
  GeometryObject {
      geometry_results : gmap string value;
      update_parameters : raised + gmap string value }.

(** What [calculate_geometry] calls:
    - [check_geometry_input], with its verdict and [self.parameters] as it
      leaves them (it always returns: its [finally] clause returns);
    - [_collect_widgets], which overwrites the dictionary it is given
      from the widgets, as they are when [_collect_input] runs, and may
      raise on the way;
    - [main.collect_input], [main.compare_dictionaries] and
      [main.reset_results], which read their arguments and return;
    - [geometry.Geometry], which reads the parameters and raises or gives
      its object. *)
Record collaborators : Type :=
  Collaborators {
      check_geometry_input : gmap string value -> bool * gmap string value;
      _collect_widgets :
        gmap string value -> option raised * gmap string value;
      collect_input : gmap string value -> gmap string value;
      compare_dictionaries : gmap string value -> gmap string value -> bool;
      reset_results : results;
      Geometry : gmap string value -> raised + geometry_object }.

(** A dictionary in a condition: true unless empty. *)
Definition truthy (d : gmap string value) : bool := negb (bool_decide (d = ∅)).

(** [_collect_input(parameters, ids, parser_info)]: the dictionary
    [parameters] as the call leaves it, and the exception raised or the
    input parameters returned. *)
Definition _collect_input
    (c : collaborators) (parameters : gmap string value)
  : gmap string value * (raised + gmap string value) :=
  match _collect_widgets c parameters with
  | (Some e, parameters) => (parameters, inl e)
  | (None, parameters) => (parameters, inr (collect_input c parameters))
  end.

(** [giGUI.calculate_geometry] up to the end of its [try] statement
    (lines 1276 to 1300), before the widgets are redrawn: the exception
    that leaves the call, if any, and the state at that point.  Only
    [GeometryError] is caught, at either of the two calls that may raise
    it. *)
Definition calculate_geometry
    (c : collaborators) (st : calc_state) : option raised * calc_state :=
  let '(success, parameters) := check_geometry_input c (parameters st) in
  if success then
    match _collect_input c parameters with
    | (parameters, inl e) =>
        (Some e,
         {| parameters := parameters;
            current := current st;
            previous_results := previous_results st |})
    | (parameters, inr current_input) =>
        let previous_results :=
          if truthy (geometry (current st))
             && compare_dictionaries c current_input (input (current st))
          then current st
          else previous_results st in
        (* Reset results, store input *)
        let results :=
          {| input := current_input;
             geometry := geometry (reset_results c) |} in
        match Geometry c parameters with
        | inr gi_geometry =>
            let results :=
              {| input := input results;
                 geometry := geometry_results gi_geometry |} in
            match update_parameters gi_geometry with
            | inr updated_parameters =>
                (None,
                 {| parameters := updated_parameters;
                    current := results;
                    previous_results := previous_results |})
            | inl e =>
                (match e with GeometryError _ => None | _ => Some e end,
                 {| parameters := parameters;
                    current := results;
                    previous_results := previous_results |})
            end
        | inl e =>
            (match e with GeometryError _ => None | _ => Some e end,
             {| parameters := parameters;
                current := results;
                previous_results := previous_results |})
        end
    end
  else
    (None,
     {| parameters := parameters;
        current := current st;
        previous_results := previous_results st |}).

End Calculate.

Arguments results : clear implicits.
Arguments calc_state : clear implicits.
Arguments geometry_object : clear implicits.
Arguments collaborators : clear implicits.

(** *** The component chain *)

(** The part of the application object the chain handlers work on:
    [setup_components], [sample_added], the [add_sample] check box, the
    two sample spinners, [parameters['sample_position']] ([None] at the
    start) and [available_gratings]. *)
Record setup : Type :=
  Setup { setup_components : list string;
          sample_added : bool;
          add_sample_active : bool;
          sample_relative_to : string;
          sample_relative_position : string;
          sample_position : option string;
          available_gratings : list string }.

Definition with_components (l : list string) (st : setup) : setup :=
  {| setup_components := l;
     sample_added := sample_added st;
     add_sample_active := add_sample_active st;
     sample_relative_to := sample_relative_to st;
     sample_relative_position := sample_relative_position st;
     sample_position := sample_position st;
     available_gratings := available_gratings st |}.

Definition with_sample_added (b : bool) (st : setup) : setup :=
  {| setup_components := setup_components st;
     sample_added := b;
     add_sample_active := add_sample_active st;
     sample_relative_to := sample_relative_to st;
     sample_relative_position := sample_relative_position st;
     sample_position := sample_position st;
     available_gratings := available_gratings st |}.

Definition with_add_sample_active (b : bool) (st : setup) : setup :=
  {| setup_components := setup_components st;
     sample_added := sample_added st;
     add_sample_active := b;
     sample_relative_to := sample_relative_to st;
     sample_relative_position := sample_relative_position st;
     sample_position := sample_position st;
     available_gratings := available_gratings st |}.

Definition with_sample_relative_to (t : string) (st : setup) : setup :=
  {| setup_components := setup_components st;
     sample_added := sample_added st;
     add_sample_active := add_sample_active st;
     sample_relative_to := t;
     sample_relative_position := sample_relative_position st;
     sample_position := sample_position st;
     available_gratings := available_gratings st |}.

Definition with_sample_position (p : option string) (st : setup) : setup :=
  {| setup_components := setup_components st;
     sample_added := sample_added st;
     add_sample_active := add_sample_active st;
     sample_relative_to := sample_relative_to st;
     sample_relative_position := sample_relative_position st;
     sample_position := p;
     available_gratings := available_gratings st |}.

Definition with_available_gratings (g : list string) (st : setup) : setup :=
  {| setup_components := setup_components st;
     sample_added := sample_added st;
     add_sample_active := add_sample_active st;
     sample_relative_to := sample_relative_to st;
     sample_relative_position := sample_relative_position st;
     sample_position := sample_position st;
     available_gratings := g |}.

(** [l.index(x)]: the first position of [x]; [None] stands for
    [ValueError]. *)
Fixpoint index (x : string) (l : list string) : option nat :=
  match l with
  | [] => None
  | y :: r => if String.eqb y x then Some 0 else S <$> index x r
  end.

(** [l.insert(i, x)] for [i >= 0]: behind the end it appends. *)
Definition py_insert (i : nat) (x : string) (l : list string) : list string :=
  take i l ++ x :: drop i l.

(** [s[0]], as a string; [None] stands for [IndexError]. *)
Definition first_char (s : string) : option string :=
  match s with
  | EmptyString => None
  | String c _ => Some (String c EmptyString)
  end.

(** [giGUI.on_setup_components]: [setup_components] is a list property,
    and this observer runs after every operation that changes the list
    ([append], [sort], an assignment to an item, [insert], [remove]). *)
Definition on_setup_components (st : setup) : outcome setup :=
  if negb (sample_added st) then
    match head (setup_components st) with
    | Some first => Returned (with_sample_relative_to first st)
    | None => Raised IndexError st
    end
  else Returned st.

(** An operation on the list [self.setup_components], followed by its
    observer. *)
Definition set_components (l : list string) (st : setup) : outcome setup :=
  on_setup_components (with_components l st).

(** The next statement runs when the one before returned. *)
Definition and_then
    (o : outcome setup) (f : setup -> outcome setup) : outcome setup :=
  match o with
  | Returned st => f st
  | Raised e st => Raised e st
  end.

(** [giGUI.on_sample_checkbox_active(state)]; the observer of the list
    runs after [insert] and after [remove]. *)
Definition on_sample_checkbox_active (state : bool) (st : setup) : outcome setup :=
  if state then
    let st := with_sample_added true st in
    match index (sample_relative_to st) (setup_components st) with
    | None => Raised ValueError st
    | Some reference_index =>
        and_then
          (if String.eqb (sample_relative_position st) "after"
           then set_components
                  (py_insert (reference_index + 1) "Sample"
                     (setup_components st))
                  st
           else set_components
                  (py_insert reference_index "Sample" (setup_components st))
                  st)
          (fun st =>
        if String.eqb (sample_relative_to st) "Source"
           || String.eqb (sample_relative_to st) "Detector"
        then
          match first_char (sample_relative_position st),
                first_char (sample_relative_to st) with
          | Some p, Some r =>
              Returned (with_sample_position (Some (p +:+ PyStr.lower r)) st)
          | _, _ => Raised IndexError st
          end
        else
          match first_char (sample_relative_position st) with
          | Some p =>
              Returned
                (with_sample_position
                   (Some (p +:+ PyStr.lower (sample_relative_to st))) st)
          | None => Raised IndexError st
          end)
    end
  else
    if bool_decide ("Sample" ∈ setup_components st) then
      and_then
        (set_components
           (Distances.remove_first "Sample" (setup_components st)) st)
        (fun st =>
      let st := with_sample_added false st in
      Returned (with_sample_position None st))
    else Raised ValueError st.

(** [l.sort()] on strings: ascending by bytes. *)
Definition sort (l : list string) : list string := merge_sort String.le l.

(** Assigning [ids.add_sample.active]: observers run only when the value
    changes. *)
Definition set_add_sample_active
    (observer : bool -> setup -> outcome setup) (b : bool) (st : setup)
  : outcome setup :=
  if Bool.eqb (add_sample_active st) b then Returned st
  else observer b (with_add_sample_active b st).

(** [giGUI.on_grating_checkbox_active(state, grating)] up to the point
    where it hands over to [on_gi_geometry] and [on_beam_geometry];
    [observer] is what is bound to the [add_sample] check box.  The swap
    of the first and the last component is two assignments to an item,
    the first one before the last one.  The writes to the type and shape
    widgets of the grating, which do not touch the chain, are left out,
    and so is what is bound to the text of the spinner
    [sample_relative_to] outside this file. *)
Definition on_grating_checkbox_active
    (observer : bool -> setup -> outcome setup)
    (state : bool) (grating : string) (st : setup) : outcome setup :=
  if state then
    and_then (set_components (setup_components st ++ [grating]) st)
      (fun st =>
    and_then (set_components (sort (setup_components st)) st)
      (fun st =>
    match head (setup_components st), last (setup_components st) with
    | Some first, Some last_ =>
        and_then (set_components (<[0 := last_]> (setup_components st)) st)
          (fun st =>
        and_then
          (set_components
             (<[length (setup_components st) - 1 := first]>
                (setup_components st)) st)
          (fun st =>
        Returned (if String.eqb grating "G0"
                  then with_available_gratings ["G0"; "G1"; "G2"] st
                  else st)))
    | _, _ => Raised IndexError st
    end))
  else
    if bool_decide (grating ∈ setup_components st) then
      and_then
        (set_components
           (Distances.remove_first grating (setup_components st)) st)
        (fun st =>
      and_then (set_add_sample_active observer false st)
        (fun st =>
      match head (setup_components st) with
      | None => Raised IndexError st
      | Some first =>
          let st := with_sample_relative_to first st in
          Returned (if String.eqb grating "G0"
                    then with_available_gratings ["G1"; "G2"] st
                    else st)
      end))
    else Raised ValueError st.

(** *** The chain invariant *)

Definition is_grating (c : string) : bool :=
  String.eqb c "G0" || String.eqb c "G1" || String.eqb c "G2".

(** What may stand between source and detector. *)
Definition is_inner (c : string) : bool :=
  is_grating c || String.eqb c "Sample".

Definition gratings_of (l : list string) : list string :=
  filter (fun c => is_grating c = true) l.

Fixpoint ascending (l : list string) : bool :=
  match l with
  | a :: ((b :: _) as r) => String.leb a b && ascending r
  | _ => true
  end.

Fixpoint strictly_ascending (l : list string) : bool :=
  match l with
  | a :: ((b :: _) as r) => String.ltb a b && strictly_ascending r
  | _ => true
  end.

(** Source first, detector last, gratings and sample between them, the
    gratings in the order G0, G1, G2. *)
Definition chain_inv (l : list string) : bool :=
  match l with
  | first :: rest =>
      match reverse rest with
      | last_ :: inner =>
          String.eqb first "Source" && String.eqb last_ "Detector"
          && forallb is_inner inner
          && ascending (gratings_of l)
      | [] => false
      end
  | [] => false
  end.

(** No grating stands twice in the chain. *)
Definition gratings_once (l : list string) : bool :=
  strictly_ascending (gratings_of l).

(** What the grating handler needs of the observer of the [add_sample]
    check box when the box is cleared: it leaves a chain a chain, and
    doubles no grating. *)
Definition keeps_chain (observer : bool -> setup -> outcome setup) : Prop :=
  forall st,
    chain_inv (setup_components st) = true ->
    chain_inv (setup_components (state_of (observer false st))) = true
    /\ (gratings_once (setup_components st) = true ->
        gratings_once (setup_components (state_of (observer false st))) = true).

(** *** Sample data *)

(** Collaborators of a run in which the input check passes, the widgets
    give the parameters back as they are and [geometry.Geometry] raises
    [GeometryError]; the results are reset to empty dictionaries. *)
Definition failing_collaborators : collaborators string :=
  {| check_geometry_input := fun parameters => (true, parameters);
     _collect_widgets := fun parameters => (None, parameters);
     collect_input := fun parameters => parameters;
     compare_dictionaries := fun a b => negb (bool_decide (a = b));
     reset_results := {| input := ∅; geometry := ∅ |};
     Geometry :=
       fun _ => inl (GeometryError "Distance from G1 to G2 is missing.") |}.


(** An application state that holds a geometry result from an earlier
    run. *)
Definition computed_state : calc_state string :=
  {| parameters := {[ "design_energy" := "25" ]};
     current := {| input := {[ "design_energy" := "25" ]};
                   geometry := {[ "distance_g1_g2" := "100.0" ]} |};
     previous_results := {| input := ∅; geometry := ∅ |} |}.

(** A chain with both gratings, the sample to go behind G1. *)
Definition two_gratings : setup :=
  {| setup_components := ["Source"; "G1"; "G2"; "Detector"];
     sample_added := false;
     add_sample_active := false;
     sample_relative_to := "G1";
     sample_relative_position := "after";
     sample_position := None;
     available_gratings := ["G1"; "G2"] |}.

End GiGUI.

(** ** [IntInput]: the text input that only accepts positive integers *)

Module IntInput.

(** [IntInput.insert_text(self, substring)]: the pattern is the one of
    [FloatInput], and there is no case for a decimal point. *)
Definition insert_text
    (substring : string) (w : FloatInput.widget) : FloatInput.widget :=
  FloatInput.super_insert_text (FloatInput.re_sub_pattern substring) w.

(** Only ['0'..'9']. *)
Definition int_text (t : string) : bool := PyStr.all PyStr.is_digit t.

End IntInput.

(** ** The linked pair under any sequence of text events *)

Module LinkedPair.
Import Distances.

(** The states of a pair that [update] created, after any number of text
    assignments, by the user or by the program. *)
Inductive reachable (near_id far_id : string) : linked_pair -> Prop :=
| reachable_fresh fixed :
    reachable near_id far_id (fresh_pair near_id far_id fixed)
| reachable_event p s v :
    reachable near_id far_id p ->
    reachable near_id far_id (text_event s v p).

(** What holds of a pair however its texts were set: the inputs keep
    their ids; a disabled input has a partner that holds a value and is
    enabled; and the flag is down whenever both hold a value. *)
Definition pair_sound (near_id far_id : string) (p : linked_pair) : Prop :=
  id (near p) = near_id /\ id (far p) = far_id
  /\ (disabled (near p) = true ->
      has_text Far p = true /\ disabled (far p) = false)
  /\ (disabled (far p) = true ->
      has_text Near p = true /\ disabled (near p) = false)
  /\ (has_text Near p = true -> has_text Far p = true ->
      distance_fixed p = false).

(** The loop of [reset_distances] (and of [reset_input] and
    [reset_widgets]) over the two inputs of the pair: [children] lists the
    container added last first, so the extra input is emptied before the
    adjacent one. *)
Definition reset_pair (p : linked_pair) : linked_pair :=
  text_event Near "" (text_event Far "" p).

End LinkedPair.

(** ** Loading several input files *)

Module InputFiles.
Import InputFile.

(** The loop of [on_load_input_file_paths] over the selected files, each
    given by its lines: the dictionary starts empty and every file is
    read into what the files before it left. *)
Definition load_input_files
    (files : list (list string)) : option (gmap string value) :=
  foldl (fun input_parameters input_file =>
           match input_parameters with
           | Some d => _load_input_file input_file d
           | None => None
           end)
        (Some ∅) files.

End InputFiles.

(** ** [check_geometry_input] *)

Module Checks.

(** [str.upper()] on one byte: only ['a'..'z'] change. *)
Definition upper_char (c : ascii) : ascii :=
  let n := nat_of_ascii c in
  if (97 <=? n)%nat && (n <=? 122)%nat then ascii_of_nat (n - 32) else c.

(** [s.upper()] *)
Fixpoint upper (s : string) : string :=
  match s with
  | EmptyString => EmptyString
  | String c r => String (upper_char c) (upper r)
  end.

(** What can be raised inside the [try] block: [InputError] with its
    message, or any other exception. *)
Inductive raised : Type :=
| InputError (msg : string)
| OtherException.

Section Check.

(** The values of [self.parameters]. *)
Context {value : Type}.

(** What the check calls outside this file, each with the exception it
    may end in and [self.parameters] as it leaves them: [_collect_widgets],
    [check_input.geometry_input] and [_set_widgets]; [truthy] is the truth
    value of a parameter in a condition and [active] the state of the
    check box [<grating>_set]. *)
Record check_collaborators : Type :=
  CheckCollaborators {
      collect_widgets : gmap string value -> option raised * gmap string value;
      geometry_input : gmap string value -> option raised * gmap string value;
      set_widgets : gmap string value -> option raised;
      truthy : value -> bool;
      active : string -> bool }.

(** The loop over the gratings: the first selected grating without a
    type raises; a missing key raises [KeyError]. *)
Fixpoint check_grating_types
    (c : check_collaborators) (parameters : gmap string value)
    (gratings : list string) : option raised :=
  match gratings with
  | [] => None
  | grating :: rest =>
      if active c (grating +:+ "_set") then
        match parameters !! ("type_" +:+ grating) with
        | None => Some OtherException
        | Some t =>
            if negb (truthy c t)
            then Some (InputError
                         ("Type of " +:+ upper grating +:+ " not defined."))
            else check_grating_types c parameters rest
        end
      else check_grating_types c parameters rest
  end.

(** The body of the [try] block: the exception it ends in, if any, and
    [self.parameters] at that point. *)
Definition check_geometry_body
    (c : check_collaborators) (parameters : gmap string value)
  : option raised * gmap string value :=
  match collect_widgets c parameters with
  | (Some e, parameters) => (Some e, parameters)
  | (None, parameters) =>
      match parameters !! "design_energy" with
      | None => (Some OtherException, parameters)
      | Some e =>
          if negb (truthy c e)
          then (Some (InputError
                        "Input argument missing: 'design_energy' ('-e')."),
                parameters)
          else
            match check_grating_types c parameters ["g0"; "g1"; "g2"] with
            | Some e => (Some e, parameters)
            | None =>
                match geometry_input c parameters with
                | (Some e, parameters) => (Some e, parameters)
                | (None, parameters) => (set_widgets c parameters, parameters)
                end
            end
      end
  end.

(** [giGUI.check_geometry_input]: [success], [self.parameters] afterwards
    and the message shown in the error popup, if one was.  The [return]
    in the [finally] clause ends the call whatever was raised. *)
Definition check_geometry_input
    (c : check_collaborators) (parameters : gmap string value)
  : bool * gmap string value * option string :=
  match check_geometry_body c parameters with
  | (Some (InputError msg), parameters) => (false, parameters, Some msg)
  | (_, parameters) => (true, parameters, None)
  end.

End Check.

Arguments check_collaborators : clear implicits.

(** [calculate_geometry] with this input check in the place its model
    leaves open. *)
Definition with_check {value : Type}
    (k : check_collaborators value)
    (c : GiGUI.collaborators value) : GiGUI.collaborators value :=
  {| GiGUI.check_geometry_input :=
       fun parameters =>
         let r := check_geometry_input k parameters in (r.1.1, r.1.2);
     GiGUI._collect_widgets := GiGUI._collect_widgets c;
     GiGUI.collect_input := GiGUI.collect_input c;
     GiGUI.compare_dictionaries := GiGUI.compare_dictionaries c;
     GiGUI.reset_results := GiGUI.reset_results c;
     GiGUI.Geometry := GiGUI.Geometry c |}.

(** *** Sample data *)

(** A check in which the widgets give the parameters back as they are,
    [check_input.geometry_input] and [_set_widgets] return, an empty
    string is false, and the check boxes of G1 and G2 are active. *)
Definition sample_check : check_collaborators string :=
  {| collect_widgets := fun parameters => (None, parameters);
     geometry_input := fun parameters => (None, parameters);
     set_widgets := fun _ => None;
     truthy := fun v => negb (String.eqb v "");
     active := fun name => String.eqb name "g1_set"
                           || String.eqb name "g2_set" |}.

End Checks.

(** ** [on_look_up_table] *)

Module LookUpTable.

(** The spinner text and the [photo_only] check box. *)
Record lut : Type := Lut { look_up_table : string; photo_only : bool }.

(** [giGUI.on_look_up_table]; [values] are the options of the spinner. *)
Definition on_look_up_table (values : list string) (st : lut) : lut :=
  let st :=
    if negb (String.eqb (look_up_table st) "NIST")
    then {| look_up_table := look_up_table st; photo_only := false |}
    else st in
  if negb (bool_decide (Checks.upper (look_up_table st) ∈ values))
  then {| look_up_table := "NIST"; photo_only := photo_only st |}
  else {| look_up_table := Checks.upper (look_up_table st);
          photo_only := photo_only st |}.

End LookUpTable.

(** ** The chain handed to the distance panel *)

Module Panel.
Import GiGUI.

(** [self.ids.distances.update(self.setup_components, dual_phase,
    beam_geometry, gi_geometry)], on the chain: the panel works on the
    list object of the application, so the sample it removes is gone from
    [setup_components], and the change of the list runs
    [on_setup_components]. *)
Definition distances_update
    (dual_phase : bool) (beam_geometry gi_geometry : string) (st : setup)
  : outcome setup :=
  if bool_decide ("Sample" ∈ setup_components st) then
    on_setup_components
      (with_components
         (Distances.update (setup_components st) dual_phase
            beam_geometry gi_geometry).2
         st)
  else Returned st.



End Panel.

(** * Properties *)

(** ** Strings *)

Section PyStrFacts.
Import PyStr.

Lemma app_nil_l s : "" +:+ s = s.
Proof. reflexivity. Qed.

Lemma app_cons c s t : String c s +:+ t = String c (s +:+ t).
Proof. reflexivity. Qed.

Lemma take_drop n s : take n s +:+ drop n s = s.
Proof.
  revert s; induction n as [|n IH]; intros [|c r]; simpl; try reflexivity.
  now rewrite app_cons, IH.
Qed.

Lemma count_app c s t : count c (s +:+ t) = count c s + count c t.
Proof.
  induction s as [|d r IH]; [reflexivity|].
  rewrite app_cons; simpl. rewrite IH. lia.
Qed.

Lemma all_app p s t : all p (s +:+ t) = all p s && all p t.
Proof.
  induction s as [|d r IH]; [reflexivity|].
  rewrite app_cons; simpl. rewrite IH. now rewrite andb_assoc.
Qed.

Lemma contains_char_count c s :
  contains (String c EmptyString) s = true <-> 0 < count c s.
Proof.
  induction s as [|d r IH]; simpl.
  - split; [discriminate | lia].
  - rewrite (Ascii.eqb_sym c d). destruct (Ascii.eqb d c); simpl.
    + split; [lia | reflexivity].
    + exact IH.
Qed.

End PyStrFacts.

(** ** [FloatInput] *)

Section FloatInputFacts.
Import PyStr FloatInput.

Lemma re_sub_pattern_digits s : all is_digit (re_sub_pattern s) = true.
Proof.
  induction s as [|c r IH]; simpl; [reflexivity|].
  destruct (is_digit c) eqn:E; simpl; [rewrite E|]; exact IH.
Qed.

Lemma digits_float_chars s : all is_digit s = true -> all float_char s = true.
Proof.
  induction s as [|c r IH]; simpl; [reflexivity|].
  intros [Hc Hr]%andb_prop. unfold float_char at 1. rewrite Hc. simpl. auto.
Qed.

Lemma digits_no_dot s : all is_digit s = true -> count "." s = 0.
Proof.
  induction s as [|c r IH]; simpl; [reflexivity|].
  intros [Hc Hr]%andb_prop. rewrite (IH Hr).
  destruct (Ascii.eqb_spec c "."%char) as [->|]; [discriminate Hc | reflexivity].
Qed.

(** [split(sep, 1)] gives one piece, or two pieces around the
    separator. *)
Lemma split1_shape sep s :
  split1 sep s = [s] \/
  exists a b, split1 sep s = [a; b] /\ s = a +:+ String sep b.
Proof.
  induction s as [|c r IH]; simpl; [now left|].
  destruct (Ascii.eqb_spec c sep) as [->|Hne].
  - right. now exists EmptyString, r.
  - destruct IH as [-> | (a & b & -> & ->)]; [now left|].
    right. now exists (String c a), b.
Qed.

(** What [insert_text] hands to the toolkit: digits, and a single ['.']
    only when the text has none yet. *)
Lemma filtered_float has_dot substring :
  let s := if has_dot : bool then re_sub_pattern substring
           else String.concat "." (map re_sub_pattern (split1 "." substring)) in
  all float_char s = true /\
  count "." s <= (if has_dot then 0 else 1).
Proof.
  destruct has_dot; simpl.
  - split; [apply digits_float_chars, re_sub_pattern_digits|].
    now rewrite digits_no_dot by apply re_sub_pattern_digits.
  - destruct (split1_shape "." substring) as [-> | (a & b & -> & _)]; simpl.
    + split; [apply digits_float_chars, re_sub_pattern_digits|].
      rewrite digits_no_dot by apply re_sub_pattern_digits. lia.
    + rewrite all_app, count_app. simpl.
      rewrite !digits_float_chars by apply re_sub_pattern_digits.
      rewrite !digits_no_dot by apply re_sub_pattern_digits.
      split; [reflexivity | lia].
Qed.

(** C9: [insert_text] keeps the text of the widget a float text: only
    the bytes ['0'..'9'] and ['.'], with at most one ['.'], whatever the
    inserted substring and wherever the cursor is. *)
Theorem insert_text_float_text (w : widget) (substring : string) :
  float_text (text w) = true ->
  float_text (text (insert_text substring w)) = true.
Proof.
  unfold float_text. intros [Hall Hcount]%andb_prop.
  apply Nat.leb_le in Hcount.
  unfold insert_text, super_insert_text. cbn [text].
  pose proof (filtered_float (contains "." (text w)) substring) as [Hs Hdots].
  cbn zeta in Hs, Hdots.
  set (s := if contains "." (text w) then _ else _) in *.
  pose proof (take_drop (cursor w) (text w)) as Hsplit.
  rewrite <- Hsplit in Hall, Hcount.
  rewrite all_app in Hall. apply andb_prop in Hall as [Ht Hd].
  rewrite count_app in Hcount.
  rewrite !all_app, !count_app, Ht, Hs, Hd. cbn [andb].
  apply Nat.leb_le.
  destruct (contains "." (text w)) eqn:Hdot; [lia|].
  assert (count "." (text w) = 0) as Hzero.
  { destruct (count "." (text w)) eqn:E; [reflexivity|].
    assert (contains "." (text w) = true) as Hc
      by (apply contains_char_count; lia).
    congruence. }
  rewrite <- Hsplit, count_app in Hzero. lia.
Qed.

Lemma insert_text_float_text_witness :
  float_text (text (insert_text "-1.5e.3" {| text := "20"; cursor := 1 |}))
  = true.
Proof.
  apply (insert_text_float_text {| text := "20"; cursor := 1 |} "-1.5e.3").
  reflexivity.
Defined.

Example insert_text_filters :
  text (insert_text "-1.5e.3" {| text := "20"; cursor := 1 |}) = "21.530"
  /\ text (insert_text "-1.5e.3" {| text := "2.0"; cursor := 1 |}) = "2153.0".
Proof. split; reflexivity. Qed.

End FloatInputFacts.

(** ** The distance panel *)

Section DistancesFacts.
Import PyStr Distances.

Lemma string_eqb_false (a b : string) : a ≠ b -> String.eqb a b = false.
Proof. intros H. now apply String.eqb_neq. Qed.

Lemma id_set_disabled b w : id (set_disabled b w) = id w.
Proof. reflexivity. Qed.

Lemma id_distance_value_of dual_phase beam_geometry gi_geometry distance_id :
  id (distance_value_of dual_phase beam_geometry gi_geometry distance_id)
  = distance_id.
Proof.
  unfold distance_value_of.
  repeat match goal with
         | |- context [if ?c then _ else _] => destruct c
         end; reflexivity.
Qed.

(** The loop, one adjacent pair at a time. *)
Lemma update_loop_step dual_phase beam_geometry gi_geometry a b r :
  update_loop dual_phase beam_geometry gi_geometry (a :: b :: r)
  = let '(cs, bs, extra) :=
      update_loop dual_phase beam_geometry gi_geometry (b :: r) in
    let c := {| label := distance_text_of a b;
                value := distance_value_of dual_phase beam_geometry
                           gi_geometry (distance_id_of a b) |} in
    if has_extra gi_geometry (distance_id_of a b) then
      let e := extra_container (distance_id_of a b) in
      (c :: e :: cs,
       (distance_id_of a b, id (value e))
         :: (id (value e), distance_id_of a b) :: bs,
       true)
    else (c :: cs, bs, extra).
Proof. reflexivity. Qed.

(** Every input the loop adds is the input of an adjacent pair or one of
    the two extra inputs. *)
Lemma update_loop_inputs dual_phase beam_geometry gi_geometry component_list w :
  w ∈ map value
        (update_loop dual_phase beam_geometry gi_geometry component_list).1.1 ->
  (exists a b,
      w = distance_value_of dual_phase beam_geometry gi_geometry
            (distance_id_of a b))
  \/ w = new_float_input "distance_source_g2"
  \/ w = new_float_input "distance_g0_g2".
Proof.
  induction component_list as [|a l IH]; [intros H; inversion H|].
  destruct l as [|b r]; [intros H; inversion H|].
  rewrite update_loop_step.
  destruct (update_loop dual_phase beam_geometry gi_geometry (b :: r))
    as [[cs bs] extra] eqn:E.
  cbn [fst] in IH.
  destruct (has_extra gi_geometry (distance_id_of a b)); cbn [fst map].
  - rewrite !elem_of_cons. intros [-> | [-> | H]].
    + left; eauto.
    + right. unfold extra_container.
      destruct (String.eqb _ _); cbn; auto.
    + auto.
  - rewrite elem_of_cons. intros [-> | H]; [left; eauto | auto].
Qed.

(** An adjacent pair of the list gets its input. *)
Lemma update_loop_adjacent dual_phase beam_geometry gi_geometry pre a b post :
  distance_value_of dual_phase beam_geometry gi_geometry (distance_id_of a b)
  ∈ map value
      (update_loop dual_phase beam_geometry gi_geometry
         (pre ++ a :: b :: post)).1.1.
Proof.
  induction pre as [|x pre IH].
  - cbn [app]. rewrite update_loop_step.
    destruct (update_loop _ _ _ (b :: post)) as [[cs bs] extra].
    destruct (has_extra _ _); cbn [fst map]; apply list_elem_of_here.
  - assert (exists y rest, pre ++ a :: b :: post = y :: rest) as (y & rest & E)
      by (destruct pre; cbn; eauto).
    cbn [app]. rewrite E in IH |- *. rewrite update_loop_step.
    destruct (update_loop _ _ _ (y :: rest)) as [[cs bs] extra].
    cbn [fst] in IH.
    destruct (has_extra _ _); cbn [fst map];
      repeat apply list_elem_of_further; exact IH.
Qed.

(** The panel of a parallel beam outside the free geometry. *)
Lemma update_parallel_panel component_list dual_phase gi_geometry :
  gi_geometry ≠ "free" ->
  relevant_components component_list "parallel" gi_geometry = ["G1"; "G2"]
  /\ (update component_list dual_phase "parallel" gi_geometry).1
     = {| added :=
            [ {| label := "Distance from G1 to G2 [mm]";
                 value := {| id := "distance_g1_g2"; text := "";
                             disabled := true |} |} ];
          bound := [];
          height := LINE_HEIGHT |}.
Proof.
  intros Hfree.
  assert (relevant_components component_list "parallel" gi_geometry
          = ["G1"; "G2"]) as Hrel.
  { unfold relevant_components.
    now rewrite (string_eqb_false _ _ Hfree). }
  split; [exact Hrel|].
  unfold update. rewrite Hrel.
  cbn [update_loop]. unfold distance_value_of.
  rewrite (string_eqb_false _ _ Hfree). reflexivity.
Qed.

(** C2: with a parallel beam outside the free geometry the panel works on
    the list [G1, G2] only: its single input is [distance_g1_g2], disabled,
    and no observer is bound. *)
Theorem update_parallel_not_free component_list dual_phase gi_geometry :
  gi_geometry ≠ "free" ->
  relevant_components component_list "parallel" gi_geometry = ["G1"; "G2"]
  /\ inputs (update component_list dual_phase "parallel" gi_geometry).1
     = [ {| id := "distance_g1_g2"; text := ""; disabled := true |} ]
  /\ bound (update component_list dual_phase "parallel" gi_geometry).1 = [].
Proof.
  intros Hfree.
  destruct (update_parallel_panel component_list dual_phase gi_geometry Hfree)
    as [Hrel ->].
  split; [exact Hrel|]. split; reflexivity.
Qed.

Lemma update_parallel_not_free_witness :
  "conv" ≠ "free"
  /\ inputs (update ["Source"; "G1"; "Sample"; "G2"; "Detector"] true
               "parallel" "conv").1
     = [ {| id := "distance_g1_g2"; text := ""; disabled := true |} ].
Proof.
  split; [discriminate|].
  apply (update_parallel_not_free
           ["Source"; "G1"; "Sample"; "G2"; "Detector"] true "conv").
  discriminate.
Defined.

(** C3, as the specification words it, fails: in the parallel symmetric
    setup no input with the id [distance_g1_g2] takes a value from the
    user. *)
Lemma parallel_g1_g2_settable_counterexample :
  ~ (exists w,
        w ∈ inputs (update ["Source"; "G1"; "G2"; "Detector"] false
                      "parallel" "sym").1
        /\ id w = "distance_g1_g2"
        /\ accepts_user_input w = true).
Proof.
  intros (w & Hin & _ & Hacc).
  cbn in Hin. apply list_elem_of_singleton in Hin. subst w.
  discriminate Hacc.
Qed.

(** C3, amended: with a parallel beam outside the free geometry the
    panel holds a single input, [distance_g1_g2], and it is disabled:
    the distance is shown, not set.  There is no other input, so no
    input of the panel takes a value from the user. *)
Theorem update_parallel_not_free_display_only
    component_list dual_phase gi_geometry :
  gi_geometry ≠ "free" ->
  (exists w,
      inputs (update component_list dual_phase "parallel" gi_geometry).1 = [w]
      /\ id w = "distance_g1_g2"
      /\ disabled w = true
      /\ accepts_user_input w = false)
  /\ length (added (update component_list dual_phase "parallel"
                      gi_geometry).1) = 1
  /\ forall w,
      w ∈ inputs (update component_list dual_phase "parallel" gi_geometry).1 ->
      id w = "distance_g1_g2" /\ accepts_user_input w = false.
Proof.
  intros Hfree.
  destruct (update_parallel_panel component_list dual_phase gi_geometry Hfree)
    as [_ ->].
  split; [|split].
  - eexists. split; [reflexivity|]. repeat split.
  - reflexivity.
  - intros w ->%list_elem_of_singleton. split; reflexivity.
Qed.

Lemma update_parallel_not_free_display_only_witness :
  "inv" ≠ "free"
  /\ exists w,
      inputs (update ["Source"; "G1"; "G2"; "Detector"] false
                "parallel" "inv").1 = [w]
      /\ id w = "distance_g1_g2"
      /\ disabled w = true
      /\ accepts_user_input w = false.
Proof.
  split; [discriminate|].
  apply (proj1 (update_parallel_not_free_display_only
                  ["Source"; "G1"; "G2"; "Detector"] false "inv"
                  ltac:(discriminate))).
Defined.

(** C4: with a cone beam outside the free geometry, the input
    [distance_g1_g2] of the panel is disabled exactly when [dual_phase]
    is off. *)
Theorem update_cone_g1_g2_disabled component_list dual_phase gi_geometry w :
  gi_geometry ≠ "free" ->
  w ∈ inputs (update component_list dual_phase "cone" gi_geometry).1 ->
  id w = "distance_g1_g2" ->
  (disabled w = true <-> dual_phase = false).
Proof.
  intros Hfree Hin Hid.
  unfold update, inputs in Hin.
  destruct (update_loop dual_phase "cone" gi_geometry
              (relevant_components component_list "cone" gi_geometry))
    as [[cs bs] extra] eqn:E.
  cbn in Hin.
  assert (w ∈ map value
            (update_loop dual_phase "cone" gi_geometry
               (relevant_components component_list "cone" gi_geometry)).1.1)
    as Hw by (rewrite E; exact Hin).
  apply update_loop_inputs in Hw.
  destruct Hw as [(a & b & ->) | [-> | ->]]; [|discriminate Hid..].
  rewrite id_distance_value_of in Hid.
  unfold distance_value_of. rewrite Hid, (string_eqb_false _ _ Hfree).
  cbn. destruct dual_phase, (String.eqb gi_geometry "sym"); cbn;
    split; congruence.
Qed.

Lemma update_cone_g1_g2_disabled_witness :
  disabled {| id := "distance_g1_g2"; text := ""; disabled := true |} = true
  <-> false = false.
Proof.
  apply (update_cone_g1_g2_disabled
           ["Source"; "G0"; "G1"; "G2"; "Detector"] false "conv"
           {| id := "distance_g1_g2"; text := ""; disabled := true |}).
  - discriminate.
  - vm_compute. do 3 apply list_elem_of_further. apply list_elem_of_here.
  - reflexivity.
Defined.

(** The input C4 speaks of exists whenever G1 is directly followed by G2
    in the list the panel works on. *)
Lemma update_cone_g1_g2_exists component_list dual_phase gi_geometry pre post :
  relevant_components component_list "cone" gi_geometry
  = pre ++ "G1" :: "G2" :: post ->
  exists w,
    w ∈ inputs (update component_list dual_phase "cone" gi_geometry).1
    /\ id w = "distance_g1_g2".
Proof.
  intros Hrel.
  exists (distance_value_of dual_phase "cone" gi_geometry
            (distance_id_of "G1" "G2")).
  split; [|apply id_distance_value_of].
  pose proof (update_loop_adjacent dual_phase "cone" gi_geometry
                pre "G1" "G2" post) as H.
  unfold update, inputs. rewrite Hrel.
  destruct (update_loop _ _ _ _) as [[cs bs] extra]. exact H.
Qed.

(** *** The linked pair *)

(** String tests stay folded below, to be decided by [String.eqb_spec]. *)
Local Arguments String.eqb : simpl never.

(** An observer called with the empty value sets no text, so one more
    level of observers changes nothing. *)
Lemma assign_text_empty_fuel n s p :
  assign_text (S n) s "" p = assign_text 1 s "" p.
Proof.
  cbn [assign_text]. destruct (String.eqb (text (get s p)) ""); reflexivity.
Qed.

Lemma on_text_fuel n linked_instance instance v p :
  on_text (assign_text (S n)) linked_instance instance v p
  = on_text (assign_text 1) linked_instance instance v p.
Proof. unfold on_text. now rewrite assign_text_empty_fuel. Qed.

(** Two levels of observers are enough: more fuel gives the same state. *)
Lemma assign_text_fuel n s v p :
  assign_text (2 + n) s v p = text_event s v p.
Proof.
  unfold text_event. cbn [Nat.add].
  change (assign_text (S (S n)) s v p)
    with (if String.eqb (text (get s p)) v then p
          else on_text (assign_text (S n)) (other s) s v
                 (put s (set_text v (get s p)) p)).
  change (assign_text 2 s v p)
    with (if String.eqb (text (get s p)) v then p
          else on_text (assign_text 1) (other s) s v
                 (put s (set_text v (get s p)) p)).
  now rewrite on_text_fuel.
Qed.

Ltac pair_cases :=
  repeat match goal with
         | |- context [String.eqb ?a ?b] =>
             destruct (String.eqb_spec a b); subst;
             cbn in *; unfold on_text; cbn in *
         | H : context [String.eqb ?a ?b] |- _ =>
             destruct (String.eqb_spec a b); subst;
             cbn in *; unfold on_text; cbn in *
         end;
  try congruence.

Ltac pair_open p s :=
  destruct p as [[i1 t1 d1] [i2 t2 d2] fx];
  unfold text_event, pair_invariant, at_most_one_text, both_populated,
    has_text in *;
  destruct s, fx; cbn in *; unfold on_text; cbn in *.

(** The first value written into a pair that [update] has just created:
    the other input is disabled and the flag goes up. *)
Lemma text_event_fresh s v near_id far_id fixed :
  v ≠ "" ->
  text_event s v (fresh_pair near_id far_id fixed)
  = match s with
    | Near => {| near := {| id := near_id; text := v; disabled := false |};
                 far := {| id := far_id; text := ""; disabled := true |};
                 distance_fixed := true |}
    | Far => {| near := {| id := near_id; text := ""; disabled := true |};
                far := {| id := far_id; text := v; disabled := false |};
                distance_fixed := true |}
    end.
Proof.
  intros Hv. unfold fresh_pair, text_event.
  destruct s, fixed; cbn; unfold on_text; cbn; pair_cases; reflexivity.
Qed.

(** C5: a text event on one input of the linked pair keeps the pair's
    invariant (at most one input holds a value, or both hold one, are
    enabled and the flag is down).  A new non-empty value empties and
    disables the other input, unless the flag is up and the other input
    holds a value: then both values stay and both inputs are enabled.
    Writing two values, one after the other, into a pair that [update]
    has just created ends in that state. *)
Theorem on_text_linked_pair (p : linked_pair) (s : side) (v : string) :
  (pair_invariant p = true -> pair_invariant (text_event s v p) = true)
  /\ (v ≠ "" -> text (get s p) ≠ v ->
      ~ (distance_fixed p = true /\ has_text (other s) p = true) ->
      text (get s (text_event s v p)) = v
      /\ text (get (other s) (text_event s v p)) = ""
      /\ disabled (get (other s) (text_event s v p)) = true)
  /\ (v ≠ "" -> text (get s p) ≠ v ->
      distance_fixed p = true -> has_text (other s) p = true ->
      text (get s (text_event s v p)) = v
      /\ text (get (other s) (text_event s v p)) = text (get (other s) p)
      /\ disabled (near (text_event s v p)) = false
      /\ disabled (far (text_event s v p)) = false
      /\ distance_fixed (text_event s v p) = false)
  /\ (forall w near_id far_id fixed,
      v ≠ "" -> w ≠ "" ->
      let q := text_event (other s) w
                 (text_event s v (fresh_pair near_id far_id fixed)) in
      text (get s q) = v /\ text (get (other s) q) = w
      /\ both_populated q = true).
Proof.
  split; [|split; [|split]].
  - pair_open p s; intros Hinv; pair_cases.
  - intros Hv Hne Hno. pair_open p s; pair_cases;
      try (exfalso; apply Hno; split; reflexivity);
      auto.
  - intros Hv Hne Hfx Hother. pair_open p s; pair_cases; auto.
  - intros w near_id far_id fixed Hv Hw q. subst q.
    rewrite (text_event_fresh s v near_id far_id fixed Hv).
    unfold text_event, both_populated, has_text.
    destruct s; cbn; unfold on_text; cbn; pair_cases; auto.
Qed.

Lemma on_text_linked_pair_witness :
  pair_invariant
    (text_event Near "120"
       {| near := {| id := "distance_source_g1"; text := "100";
                     disabled := false |};
          far := {| id := "distance_source_g2"; text := "250";
                    disabled := false |};
          distance_fixed := false |}) = true.
Proof.
  apply (proj1 (on_text_linked_pair
           {| near := {| id := "distance_source_g1"; text := "100";
                         disabled := false |};
              far := {| id := "distance_source_g2"; text := "250";
                        disabled := false |};
              distance_fixed := false |} Near "120")).
  reflexivity.
Defined.

(** The pair C5 speaks of is the one [update] binds for a cone beam in
    the converging geometry: each input observes the other. *)
Example update_binds_linked_pair :
  bound (update ["Source"; "G1"; "G2"; "Detector"] false "cone" "conv").1
  = [("distance_source_g1", "distance_source_g2");
     ("distance_source_g2", "distance_source_g1")].
Proof. reflexivity. Qed.

(** X9: from a pair as [update] creates it, text events on enabled
    inputs leave at most one input with a value; the input that holds one
    has a disabled partner, and [distance_fixed] is up. *)
Lemma user_events_at_most_one near_id far_id p :
  user_reachable near_id far_id p ->
  at_most_one_text p = true
  /\ (has_text Near p = true -> disabled (far p) = true)
  /\ (has_text Far p = true -> disabled (near p) = true)
  /\ (has_text Near p = true \/ has_text Far p = true ->
      distance_fixed p = true).
Proof.
  induction 1 as [fixed | p s v _ IH Hen].
  - cbn. repeat split; intros; try discriminate.
    destruct H; discriminate.
  - destruct IH as (H1 & H2 & H3 & H4). revert H1 H2 H3 H4 Hen.
    pair_open p s; intros; pair_cases;
      repeat split; intros; pair_cases; auto;
      try (destruct d1, d2; cbn in *; intuition congruence);
      intuition congruence.
Qed.

End DistancesFacts.

(** ** The input-file reader *)

Section InputFileFacts.
Import InputFile.

(** The value lines of a key are the longest run of lines without ['-']
    behind it. *)
Lemma values_after_spec rest :
  exists tail,
    rest = values_after rest ++ tail
    /\ Forall no_dash (values_after rest)
    /\ (tail = [] \/ exists k tl, tail = k :: tl /\ PyStr.contains "-" k = true).
Proof.
  induction rest as [|l rest (tail & Heq & Hall & Htail)]; cbn.
  - exists []. auto.
  - destruct (PyStr.contains "-" l) eqn:E.
    + exists (l :: rest). split; [reflexivity|]. split; [constructor|]. eauto.
    + exists tail. split; [cbn; congruence|]. split; [|exact Htail].
      constructor; [exact E | exact Hall].
Qed.

Lemma values_after_take rest :
  take (length (values_after rest)) rest = values_after rest.
Proof.
  induction rest as [|l rest IH]; cbn; [reflexivity|].
  destruct (PyStr.contains "-" l); cbn; [reflexivity | now rewrite IH].
Qed.

Lemma values_after_length rest : length (values_after rest) <= length rest.
Proof.
  induction rest as [|l rest IH]; cbn; [lia|].
  destruct (PyStr.contains "-" l); cbn; lia.
Qed.

(** The entry after a key index is the index of the next line with
    ['-'], or the length of the list when there is none. *)
Lemma next_key_index m rest :
  exists tl,
    key_indices_from m rest ++ [m + length rest]
    = (m + length (values_after rest)) :: tl.
Proof.
  revert m; induction rest as [|l rest IH]; intros m; cbn.
  - eauto.
  - destruct (PyStr.contains "-" l); cbn.
    + rewrite Nat.add_0_r. eauto.
    + destruct (IH (S m)) as [tl Htl].
      exists tl.
      replace (m + S (length rest)) with (S m + length rest) by lia.
      replace (m + S (length (values_after rest)))
        with (S m + length (values_after rest)) by lia.
      exact Htl.
Qed.

Lemma slice_values_after pre key rest :
  slice (length pre + 1) (S (length pre) + length (values_after rest))
    (pre ++ key :: rest)
  = values_after rest.
Proof.
  unfold slice.
  replace (S (length pre) + length (values_after rest) - (length pre + 1))
    with (length (values_after rest)) by lia.
  replace (length pre + 1) with (length (pre ++ [key]))
    by (rewrite length_app; reflexivity).
  rewrite (cons_middle key pre rest), app_assoc, drop_app_length.
  apply values_after_take.
Qed.

Lemma store_keys_step input_lines key_index next_key_index rest d :
  store_keys input_lines (key_index :: next_key_index :: rest) d
  = match input_lines !! key_index with
    | None => None
    | Some key =>
        store_keys input_lines (next_key_index :: rest)
          (<[key := if PyStr.contains "--" key then Str "True"
                    else Lines (slice (key_index + 1) next_key_index
                                  input_lines)]> d)
    end.
Proof. reflexivity. Qed.

(** The index loop stores the assignments of the line-by-line reading. *)
Lemma store_keys_assignments pre suf d :
  store_keys (pre ++ suf)
    (key_indices_from (length pre) suf ++ [length (pre ++ suf)]) d
  = Some (store_all (assignments suf) d).
Proof.
  revert pre d; induction suf as [|l rest IH]; intros pre d.
  - reflexivity.
  - specialize (IH (pre ++ [l])).
    rewrite <- !app_assoc in IH. cbn [app] in IH.
    replace (length (pre ++ [l])) with (S (length pre)) in IH
      by (rewrite length_app; cbn; lia).
    cbn [key_indices_from assignments].
    destruct (PyStr.contains "-" l) eqn:E; [|apply IH].
    destruct (next_key_index (S (length pre)) rest) as [tl Htl].
    assert (length (pre ++ l :: rest) = S (length pre) + length rest) as Hlen
      by (rewrite length_app; cbn; lia).
    rewrite Hlen in IH |- *.
    cbn [app]. rewrite Htl, store_keys_step.
    rewrite list_lookup_middle by reflexivity.
    rewrite <- Htl, slice_values_after.
    rewrite IH. reflexivity.
Qed.

Lemma load_input_file_assignments file_lines d :
  _load_input_file file_lines d
  = Some (store_all (assignments (map PyStr.strip file_lines)) d).
Proof.
  unfold _load_input_file, key_indices.
  apply (store_keys_assignments []).
Qed.

Lemma store_all_app kvs1 kvs2 d :
  store_all (kvs1 ++ kvs2) d = store_all kvs2 (store_all kvs1 d).
Proof. unfold store_all. apply foldl_app. Qed.

Lemma store_all_cons k v kvs d :
  store_all ((k, v) :: kvs) d = store_all kvs (<[k := v]> d).
Proof. reflexivity. Qed.

Lemma store_all_not_key kvs (d : gmap string value) k :
  k ∉ map fst kvs -> store_all kvs d !! k = d !! k.
Proof.
  revert d; induction kvs as [|[k' v'] kvs IH]; intros d Hk; [reflexivity|].
  cbn in Hk. apply not_elem_of_cons in Hk as [Hne Hk].
  rewrite store_all_cons, (IH _ Hk). now rewrite lookup_insert_ne.
Qed.

(** The last assignment to a key decides. *)
Lemma store_all_last kvs1 k v kvs2 (d : gmap string value) :
  k ∉ map fst kvs2 ->
  store_all (kvs1 ++ (k, v) :: kvs2) d !! k = Some v.
Proof.
  intros Hk. rewrite store_all_app, store_all_cons.
  rewrite (store_all_not_key _ _ _ Hk). apply lookup_insert_eq.
Qed.

(** A key that always gets the same value has it at the end. *)
Lemma store_all_same kvs k v (d : gmap string value) :
  k ∈ map fst kvs ->
  (forall v', (k, v') ∈ kvs -> v' = v) ->
  store_all kvs d !! k = Some v.
Proof.
  revert d; induction kvs as [|[k' v'] kvs IH]; intros d Hin Hsame.
  - inversion Hin.
  - rewrite store_all_cons. destruct (decide (k ∈ map fst kvs)) as [Hk|Hk].
    + apply IH; [exact Hk|]. intros v'' H. apply Hsame.
      now apply list_elem_of_further.
    + rewrite (store_all_not_key _ _ _ Hk).
      cbn in Hin. apply elem_of_cons in Hin as [->|Hin]; [|contradiction].
      rewrite (Hsame v') by apply list_elem_of_here. apply lookup_insert_eq.
Qed.

(** The assignment a key line gives rise to, and what comes after it. *)
Lemma assignments_split pre key rest :
  PyStr.contains "-" key = true ->
  exists before,
    assignments (pre ++ key :: rest)
    = before
        ++ (key, if PyStr.contains "--" key then Str "True"
                 else Lines (values_after rest))
        :: assignments rest.
Proof.
  intros Hkey. induction pre as [|l pre [before IH]]; cbn.
  - rewrite Hkey. now exists [].
  - rewrite IH. destruct (PyStr.contains "-" l).
    + eexists (_ :: before). reflexivity.
    + eauto.
Qed.

(** The keys assigned are lines of the file, each with its flag or value
    decided by the line itself. *)
Lemma assignments_elem lines k v :
  (k, v) ∈ assignments lines ->
  k ∈ lines /\ PyStr.contains "-" k = true
  /\ (PyStr.contains "--" k = true -> v = Str "True").
Proof.
  induction lines as [|l rest IH]; cbn; [intros H; inversion H|].
  destruct (PyStr.contains "-" l) eqn:E.
  - intros [Heq | H]%elem_of_cons.
    + injection Heq as -> ->. split; [apply list_elem_of_here|].
      split; [exact E|]. now intros ->.
    + destruct (IH H) as (? & ? & ?).
      split; [now apply list_elem_of_further | auto].
  - intros H. destruct (IH H) as (? & ? & ?).
    split; [now apply list_elem_of_further | auto].
Qed.

Lemma assignments_keys lines k :
  k ∈ map fst (assignments lines) -> k ∈ lines.
Proof.
  intros ([k' v] & -> & H)%list_elem_of_fmap.
  now apply assignments_elem in H.
Qed.

Lemma store_all_is_key kvs k (d : gmap string value) :
  k ∈ map fst kvs -> is_Some (store_all kvs d !! k).
Proof.
  revert d; induction kvs as [|[k' v'] kvs IH]; intros d Hin.
  - inversion Hin.
  - rewrite store_all_cons. destruct (decide (k ∈ map fst kvs)) as [Hk|Hk].
    + now apply IH.
    + rewrite (store_all_not_key _ _ _ Hk).
      cbn in Hin. apply elem_of_cons in Hin as [->|Hin]; [|contradiction].
      rewrite lookup_insert_eq. eauto.
Qed.

(** C10: [_load_input_file] returns, and its dictionary is the one given
    with one assignment per line that contains ['-'], in file order.  Such
    a line is a key of the result; a flag (a line with ['--']) maps to the
    string ['True']; any other key, at its last occurrence, maps to the
    lines that follow it up to the next line with ['-'], so no stored value
    line contains ['-'].  Keys without ['-'] keep what they had. *)
Theorem load_input_file_keys
    (file_lines : list string) (input_parameters : gmap string value) :
  exists result,
    _load_input_file file_lines input_parameters = Some result
    /\ result
       = store_all (assignments (map PyStr.strip file_lines)) input_parameters
    /\ (forall pre key rest,
          map PyStr.strip file_lines = pre ++ key :: rest ->
          PyStr.contains "-" key = true ->
          is_Some (result !! key)
          /\ (PyStr.contains "--" key = true ->
              result !! key = Some (Str "True"))
          /\ (PyStr.contains "--" key = false -> key ∉ rest ->
              exists vs tail,
                rest = vs ++ tail
                /\ Forall no_dash vs
                /\ (tail = []
                    \/ exists k tl,
                        tail = k :: tl /\ PyStr.contains "-" k = true)
                /\ result !! key = Some (Lines vs)))
    /\ (forall key,
          PyStr.contains "-" key = false ->
          result !! key = input_parameters !! key).
Proof.
  eexists. split; [apply load_input_file_assignments|].
  split; [reflexivity|].
  set (input_lines := map PyStr.strip file_lines).
  split.
  - intros pre key rest Hlines Hkey.
    destruct (assignments_split pre key rest Hkey) as [before Hsplit].
    rewrite Hlines, Hsplit.
    assert (key ∈ map fst
              (before
                 ++ (key, if PyStr.contains "--" key then Str "True"
                          else Lines (values_after rest))
                 :: assignments rest)) as Hin.
    { rewrite map_app. apply elem_of_app. right. apply list_elem_of_here. }
    split; [now apply store_all_is_key|]. split.
    + intros Hflag. apply store_all_same; [exact Hin|].
      intros v' Hv'. rewrite <- Hsplit in Hv'.
      apply assignments_elem in Hv' as (_ & _ & Hv'). auto.
    + intros Hflag Hlast. rewrite Hflag.
      destruct (values_after_spec rest) as (tail & Hrest & Hall & Htail).
      exists (values_after rest), tail.
      split; [exact Hrest|]. split; [exact Hall|]. split; [exact Htail|].
      apply store_all_last. intros Hk%assignments_keys. contradiction.
  - intros key Hkey. apply store_all_not_key.
    intros ([k v] & -> & H)%list_elem_of_fmap.
    apply assignments_elem in H as (_ & H & _). cbn in Hkey. congruence.
Qed.

(** A negative number among the values becomes a key of its own, and
    the key before it loses it as a value. *)
Example load_input_file_negative_value :
  let nl := String "010"%char "" in
  _load_input_file ["-e" +:+ nl; " 25" +:+ nl; "-5" +:+ nl; "--dual"]
    (∅ : gmap string value)
  = Some (<["--dual" := Str "True"]>
            (<["-5" := Lines []]> (<["-e" := Lines ["25"]]> ∅))).
Proof. reflexivity. Qed.

End InputFileFacts.

(** ** Geometry results *)

Section CalculateFacts.
Import GiGUI.




(** When [geometry.Geometry] and [update_parameters()] return, the
    results of the one are the new geometry and the parameters are those
    of the other. *)
Lemma calculate_geometry_on_success
    {value : Type} (c : collaborators value) (st : calc_state value)
    collected gi_geometry updated :
  (check_geometry_input c (parameters st)).1 = true ->
  _collect_widgets c (check_geometry_input c (parameters st)).2
  = (None, collected) ->
  Geometry c collected = inr gi_geometry ->
  update_parameters gi_geometry = inr updated ->
  (calculate_geometry c st).1 = None
  /\ geometry (current (calculate_geometry c st).2)
     = geometry_results gi_geometry
  /\ parameters (calculate_geometry c st).2 = updated.
Proof.
  intros Hcheck Hcollect Hok Hup.
  unfold calculate_geometry, _collect_input.
  destruct (check_geometry_input c (parameters st)) as [success params].
  cbn [fst snd] in *. subst success. rewrite Hcollect, Hok, Hup. cbn. auto.
Qed.

End CalculateFacts.

(** ** The sample in the component chain *)

Section SampleFacts.
Import GiGUI.

(** [index] finds the first position of an element of the list. *)
Lemma index_first x l :
  x ∈ l ->
  exists i,
    index x l = Some i
    /\ l !! i = Some x
    /\ (forall j, j < i -> l !! j ≠ Some x).
Proof.
  induction l as [|y r IH]; [intros H; inversion H|].
  intros Hin. cbn [index].
  destruct (String.eqb_spec y x) as [->|Hne].
  - exists 0. split; [reflexivity|]. split; [reflexivity|]. lia.
  - apply elem_of_cons in Hin as [->|Hin]; [contradiction|].
    destruct (IH Hin) as (i & -> & Hi & Hfirst).
    exists (S i). split; [reflexivity|]. split; [exact Hi|].
    intros [|j] Hj; cbn; [congruence|]. apply Hfirst. lia.
Qed.

Lemma index_None x l : index x l = None -> x ∉ l.
Proof.
  intros Hnone Hin. destruct (index_first x l Hin) as (i & Hi & _).
  congruence.
Qed.

Lemma py_insert_lookup i x l :
  i <= length l -> py_insert i x l !! i = Some x.
Proof.
  intros Hi. unfold py_insert.
  rewrite lookup_app_r by (rewrite length_take; lia).
  rewrite length_take. now replace (i - i `min` length l) with 0 by lia.
Qed.

Lemma py_insert_length i x l : length (py_insert i x l) = S (length l).
Proof.
  unfold py_insert. rewrite length_app. cbn.
  rewrite length_take, length_drop. lia.
Qed.

Local Arguments String.eqb : simpl never.

(** Adding the sample, in one piece: with the reference at position [i]
    and a placement that starts with the letter [p], the handler returns
    this state. *)
Lemma on_sample_added (st : setup) i p :
  index (sample_relative_to st) (setup_components st) = Some i ->
  first_char (sample_relative_position st) = Some p ->
  on_sample_checkbox_active true st
  = Returned
      {| setup_components :=
           py_insert
             (if String.eqb (sample_relative_position st) "after"
              then i + 1 else i)
             "Sample" (setup_components st);
         sample_added := true;
         add_sample_active := add_sample_active st;
         sample_relative_to := sample_relative_to st;
         sample_relative_position := sample_relative_position st;
         sample_position :=
           Some (p +:+
                 (if String.eqb (sample_relative_to st) "Source"
                     || String.eqb (sample_relative_to st) "Detector"
                  then PyStr.lower (PyStr.take 1 (sample_relative_to st))
                  else PyStr.lower (sample_relative_to st)));
         available_gratings := available_gratings st |}.
Proof.
  destruct st as [comps added active rel pos code avail].
  unfold on_sample_checkbox_active; cbn. intros -> Hp.
  destruct (String.eqb pos "after"); cbn; rewrite Hp;
    destruct (String.eqb rel "Source" || String.eqb rel "Detector") eqn:E;
    try reflexivity;
    (destruct rel as [|c rel]; [vm_compute in E; discriminate E|]);
    reflexivity.
Qed.

(** The handler only returns when the reference was found and the
    placement has a first letter. *)
Lemma on_sample_added_inv (st st' : setup) :
  on_sample_checkbox_active true st = Returned st' ->
  exists i p,
    index (sample_relative_to st) (setup_components st) = Some i
    /\ first_char (sample_relative_position st) = Some p.
Proof.
  destruct st as [comps added active rel pos code avail].
  unfold on_sample_checkbox_active; cbn.
  destruct (index rel comps) as [i|]; [|discriminate].
  destruct (first_char pos) as [p|] eqn:Hp; [eauto|].
  destruct (String.eqb pos "after"); cbn; rewrite Hp;
    destruct (String.eqb rel "Source" || String.eqb rel "Detector");
    discriminate.
Qed.

(** C6: when the reference component is in the chain, adding the sample
    returns and puts ['Sample'] at the position of the reference plus one
    for ['after'], at the position of the reference for ['before']; the
    components before and behind that position stay as they were. *)
Theorem sample_inserted_at_reference (st : setup) :
  sample_relative_to st ∈ setup_components st ->
  sample_relative_position st = "after"
  \/ sample_relative_position st = "before" ->
  exists reference_index st',
    index (sample_relative_to st) (setup_components st) = Some reference_index
    /\ setup_components st !! reference_index = Some (sample_relative_to st)
    /\ (forall j, j < reference_index ->
                  setup_components st !! j ≠ Some (sample_relative_to st))
    /\ on_sample_checkbox_active true st = Returned st'
    /\ let i := if String.eqb (sample_relative_position st) "after"
                then reference_index + 1 else reference_index in
       setup_components st'
       = take i (setup_components st) ++ "Sample" :: drop i (setup_components st)
       /\ setup_components st' !! i = Some "Sample"
       /\ length (setup_components st') = S (length (setup_components st)).
Proof.
  intros Hin Hpos.
  destruct (index_first _ _ Hin) as (i & Hidx & Hi & Hfirst).
  assert (i < length (setup_components st)) as Hlt
    by (apply lookup_lt_is_Some; eauto).
  assert (exists p, first_char (sample_relative_position st) = Some p)
    as [p Hp] by (destruct Hpos as [-> | ->]; cbn; eauto).
  exists i. eexists. split; [exact Hidx|]. split; [exact Hi|].
  split; [exact Hfirst|].
  split; [apply (on_sample_added st i p Hidx Hp)|].
  cbn [setup_components]. split; [reflexivity|].
  split; [|apply py_insert_length].
  apply py_insert_lookup. destruct (String.eqb _ _); lia.
Qed.

Lemma sample_inserted_at_reference_witness :
  exists reference_index st',
    index "G1" ["Source"; "G1"; "G2"; "Detector"] = Some reference_index
    /\ on_sample_checkbox_active true two_gratings = Returned st'
    /\ setup_components st' !! (reference_index + 1) = Some "Sample".
Proof.
  destruct (sample_inserted_at_reference two_gratings)
    as (i & st' & Hidx & _ & _ & Hret & _ & Hat & _).
  - vm_compute. apply list_elem_of_further, list_elem_of_here.
  - left; reflexivity.
  - exists i, st'. split; [exact Hidx|]. split; [exact Hret|]. exact Hat.
Defined.

(** C8, as the specification words it, fails: for a sample behind G1 the
    code is ['ag1'], three characters long. *)
Lemma sample_position_two_characters_counterexample :
  ~ (forall st st' code,
        on_sample_checkbox_active true st = Returned st' ->
        sample_position st' = Some code ->
        String.length code = 2).
Proof.
  intros H.
  specialize (H two_gratings _ "ag1" eq_refl eq_refl).
  discriminate H.
Qed.

Lemma first_char_take s p : first_char s = Some p -> p = PyStr.take 1 s.
Proof. destruct s; cbn; congruence. Qed.

(** C8, amended: for every added sample the code is the first letter of
    the placement (['a'] for after, ['b'] for before) followed by the
    lower-case first letter of the reference for Source and Detector (two
    characters) and by the lower-case name of the reference otherwise
    (three characters for G0, G1 and G2). *)
Theorem sample_position_code (st st' : setup) :
  on_sample_checkbox_active true st = Returned st' ->
  exists p r,
    first_char (sample_relative_position st) = Some p
    /\ sample_position st' = Some (p +:+ r)
    /\ (sample_relative_position st = "after" -> p = "a")
    /\ (sample_relative_position st = "before" -> p = "b")
    /\ (sample_relative_to st = "Source" -> r = "s")
    /\ (sample_relative_to st = "Detector" -> r = "d")
    /\ (sample_relative_to st ≠ "Source" ->
        sample_relative_to st ≠ "Detector" ->
        r = PyStr.lower (sample_relative_to st))
    /\ (String.length (p +:+ r)
        = if String.eqb (sample_relative_to st) "Source"
             || String.eqb (sample_relative_to st) "Detector"
          then 2 else 1 + String.length (sample_relative_to st)).
Proof.
  intros Hret.
  destruct (on_sample_added_inv st st' Hret) as (i & p & Hidx & Hp).
  rewrite (on_sample_added st i p Hidx Hp) in Hret.
  injection Hret as <-. cbn [sample_position].
  exists p. eexists. split; [exact Hp|]. split; [reflexivity|].
  pose proof Hp as Hp0. apply first_char_take in Hp.
  split; [intros E; rewrite E in Hp; exact Hp|].
  split; [intros E; rewrite E in Hp; exact Hp|].
  split; [intros ->; reflexivity|].
  split; [intros ->; reflexivity|].
  split.
  - intros Hs Hd.
    now rewrite (string_eqb_false _ _ Hs), (string_eqb_false _ _ Hd).
  - assert (forall s, String.length (PyStr.lower s) = String.length s) as Hlow
      by (induction s as [|c s IH]; cbn; congruence).
    assert (exists c, p = String c "") as [c ->]
      by (rewrite Hp; destruct (sample_relative_position st);
          [discriminate Hp0 | eauto]).
    destruct (String.eqb _ "Source" || String.eqb _ "Detector") eqn:E.
    + destruct (sample_relative_to st) as [|c' rel];
        [vm_compute in E; discriminate E | reflexivity].
    + change (S (String.length (PyStr.lower (sample_relative_to st)))
              = 1 + String.length (sample_relative_to st)).
      now rewrite Hlow.
Qed.

Lemma sample_position_code_witness :
  exists p r,
    first_char (sample_relative_position two_gratings) = Some p
    /\ sample_position
         (state_of (on_sample_checkbox_active true two_gratings))
       = Some (p +:+ r)
    /\ String.length (p +:+ r) = 3.
Proof.
  destruct (sample_position_code two_gratings
              (state_of (on_sample_checkbox_active true two_gratings)))
    as (p & r & Hp & Hcode & _ & _ & _ & _ & _ & Hlen).
  - reflexivity.
  - exists p, r. split; [exact Hp|]. split; [exact Hcode|]. exact Hlen.
Defined.

End SampleFacts.

(** ** The component chain *)

Section ChainFacts.
Import GiGUI.
Import Distances (remove_first).

(** *** Order of the component names *)

Lemma inner_cases x :
  is_inner x = true -> x = "G0" \/ x = "G1" \/ x = "G2" \/ x = "Sample".
Proof.
  unfold is_inner, is_grating. intros H.
  repeat (apply orb_prop in H as [H|H]);
    apply String.eqb_eq in H; auto.
Qed.

(** The detector sorts before every inner component and the source
    behind it: this is why swapping the ends of the sorted list works. *)
Lemma inner_between x :
  is_inner x = true -> String.le "Detector" x /\ String.le x "Source".
Proof.
  intros [-> | [-> | [-> | ->]]]%inner_cases; split; exact I.
Qed.

Lemma ltb_leb_ne a b :
  String.ltb a b = true <-> String.leb a b = true /\ a ≠ b.
Proof.
  unfold String.ltb, String.leb.
  destruct (String.compare a b) eqn:Hcmp; split.
  - discriminate.
  - intros [_ Hne]. exfalso. now apply Hne, String.compare_eq_iff.
  - intros _. split; [reflexivity|]. intros ->.
    pose proof (String.compare_antisym b b) as Hanti.
    rewrite Hcmp in Hanti. discriminate Hanti.
  - reflexivity.
  - discriminate.
  - intros [H _]; discriminate.
Qed.

(** *** Lists in ascending order *)

Lemma ascending_Sorted l : ascending l = true <-> Sorted String.le l.
Proof.
  induction l as [|a [|b r] IH]; cbn [ascending].
  - split; [constructor | reflexivity].
  - split; [repeat constructor | reflexivity].
  - rewrite andb_true_iff, IH. split.
    + intros [Hab Hs]. constructor; [exact Hs|].
      constructor. unfold String.le. now rewrite Hab.
    + intros H. inversion H as [|? ? Hs Hhd]; subst.
      inversion Hhd as [|? ? Hab]; subst.
      split; [|exact Hs]. unfold String.le in Hab.
      now destruct (String.leb a b).
Qed.

Lemma ascending_StronglySorted l :
  ascending l = true <-> StronglySorted String.le l.
Proof.
  rewrite ascending_Sorted. split.
  - apply Sorted_StronglySorted. apply _.
  - apply StronglySorted_Sorted.
Qed.

Lemma StronglySorted_filter_le (P : string -> Prop) `{!forall x, Decision (P x)} l :
  StronglySorted String.le l -> StronglySorted String.le (filter P l).
Proof.
  induction 1 as [|a l Hs IH Hall]; [constructor|].
  rewrite filter_cons. destruct (decide (P a)); [|exact IH].
  constructor; [exact IH|].
  rewrite Forall_forall in Hall |- *.
  intros x [_ Hx]%list_elem_of_filter. now apply Hall.
Qed.

Lemma strictly_ascending_NoDup l :
  strictly_ascending l = true <-> ascending l = true /\ NoDup l.
Proof.
  induction l as [|a [|b r] IH].
  - split; [split; [reflexivity | constructor] | reflexivity].
  - split; [split; [reflexivity | apply NoDup_singleton] | reflexivity].
  - cbn [strictly_ascending ascending].
    rewrite !andb_true_iff, IH, ltb_leb_ne. split.
    + intros [[Hab Hne] [Hasc Hnd]]. split; [auto|].
      apply NoDup_cons. split; [|exact Hnd].
      intros [->|Hin]%elem_of_cons; [now apply Hne|].
      apply ascending_StronglySorted, StronglySorted_inv in Hasc as [_ Hall].
      rewrite Forall_forall in Hall. specialize (Hall a Hin).
      apply Hne. apply (anti_symm String.le); [|exact Hall].
      unfold String.le. now rewrite Hab.
    + intros [[Hab Hasc] [Hnotin Hnd]%NoDup_cons].
      split; [split; [exact Hab|] | auto].
      intros ->. apply Hnotin. apply list_elem_of_here.
Qed.

(** *** [list.remove] *)

Lemma remove_first_notin x l : x ∉ l -> remove_first x l = l.
Proof.
  induction l as [|y r IH]; [reflexivity|].
  intros [Hne Hr]%not_elem_of_cons. cbn.
  rewrite (string_eqb_false y x) by congruence. now rewrite IH.
Qed.

Lemma remove_first_app x l k :
  x ∈ l -> remove_first x (l ++ k) = remove_first x l ++ k.
Proof.
  induction l as [|y r IH]; [intros H; inversion H|].
  intros Hin. cbn. destruct (String.eqb_spec y x) as [->|Hne]; [reflexivity|].
  apply elem_of_cons in Hin as [->|Hin]; [contradiction|].
  now rewrite IH.
Qed.

Lemma remove_first_elem x y l : y ∈ remove_first x l -> y ∈ l.
Proof.
  induction l as [|z r IH]; [intros H; inversion H|].
  cbn. destruct (String.eqb z x).
  - intros H. now apply list_elem_of_further.
  - intros [->|H]%elem_of_cons;
      [apply list_elem_of_here | apply list_elem_of_further; auto].
Qed.

Lemma remove_first_Forall (P : string -> Prop) x l :
  Forall P l -> Forall P (remove_first x l).
Proof.
  rewrite !Forall_forall. intros H y Hy. eapply H, remove_first_elem, Hy.
Qed.

Lemma remove_first_StronglySorted x l :
  StronglySorted String.le l -> StronglySorted String.le (remove_first x l).
Proof.
  induction 1 as [|a l Hs IH Hall]; [constructor|].
  cbn. destruct (String.eqb a x); [exact Hs|].
  constructor; [exact IH | now apply remove_first_Forall].
Qed.

Lemma remove_first_NoDup x l : NoDup l -> NoDup (remove_first x l).
Proof.
  induction 1 as [|a l Hnotin Hnd IH]; [constructor|].
  cbn. destruct (String.eqb a x); [exact Hnd|].
  constructor; [|exact IH]. intros H. apply Hnotin. eapply remove_first_elem, H.
Qed.

Lemma gratings_of_remove_first x l :
  gratings_of (remove_first x l)
  = if is_grating x then remove_first x (gratings_of l) else gratings_of l.
Proof.
  unfold gratings_of. induction l as [|y r IH]; [now destruct (is_grating x)|].
  cbn [remove_first]. destruct (String.eqb_spec y x) as [->|Hne].
  - rewrite filter_cons. destruct (is_grating x) eqn:E.
    + rewrite decide_True by reflexivity. cbn. now rewrite String.eqb_refl.
    + rewrite decide_False by discriminate. reflexivity.
  - rewrite !filter_cons, IH.
    destruct (decide (is_grating y = true)) as [Hy|Hy];
      destruct (is_grating x); try reflexivity.
    cbn. now rewrite (string_eqb_false y x Hne).
Qed.

(** *** The invariant, unfolded *)

Lemma forallb_Forall (f : string -> bool) l :
  forallb f l = true <-> Forall (fun x => f x = true) l.
Proof.
  induction l as [|a l IH]; cbn.
  - split; [constructor | reflexivity].
  - rewrite andb_true_iff, IH, Forall_cons. reflexivity.
Qed.

Lemma inner_not_end x :
  is_inner x = true -> x ≠ "Source" /\ x ≠ "Detector".
Proof.
  intros [-> | [-> | [-> | ->]]]%inner_cases; split; discriminate.
Qed.

Lemma gratings_of_chain mid :
  gratings_of ("Source" :: mid ++ ["Detector"]) = gratings_of mid.
Proof.
  unfold gratings_of.
  rewrite filter_cons_False by discriminate.
  rewrite filter_app, filter_cons_False by discriminate.
  rewrite filter_nil. apply app_nil_r.
Qed.

(** A chain is the source, inner components with the gratings in order,
    and the detector. *)
Lemma chain_inv_spec l :
  chain_inv l = true
  <-> exists mid,
        l = "Source" :: mid ++ ["Detector"]
        /\ Forall (fun x => is_inner x = true) mid
        /\ ascending (gratings_of mid) = true.
Proof.
  split.
  - destruct l as [|first rest]; [discriminate|].
    unfold chain_inv. destruct (reverse rest) as [|last_ inner] eqn:E;
      [discriminate|].
    intros H. repeat (apply andb_prop in H as [H ?]).
    apply String.eqb_eq in H as ->.
    match goal with Hl : String.eqb last_ _ = true |- _ =>
      apply String.eqb_eq in Hl as -> end.
    assert (rest = reverse inner ++ ["Detector"]) as ->.
    { rewrite <- (reverse_involutive rest), E. apply reverse_cons. }
    exists (reverse inner). split; [reflexivity|].
    split; [apply Forall_reverse; now apply forallb_Forall|].
    now rewrite <- gratings_of_chain.
  - intros (mid & -> & Hall & Hasc).
    unfold chain_inv. rewrite reverse_snoc, gratings_of_chain, Hasc.
    apply Forall_reverse, forallb_Forall in Hall. rewrite Hall. reflexivity.
Qed.

Lemma gratings_once_chain mid :
  gratings_once ("Source" :: mid ++ ["Detector"])
  = strictly_ascending (gratings_of mid).
Proof. unfold gratings_once. now rewrite gratings_of_chain. Qed.

(** *** Adding a grating: append, sort, swap the ends *)

Lemma sorted_between mid :
  StronglySorted String.le mid ->
  Forall (fun x => is_inner x = true) mid ->
  StronglySorted String.le ("Detector" :: mid ++ ["Source"]).
Proof.
  intros Hs Hall. rewrite Forall_forall in Hall.
  constructor.
  - apply StronglySorted_app_2; [|exact Hs|repeat constructor].
    intros x y Hx ->%list_elem_of_singleton. now apply inner_between, Hall.
  - apply Forall_app. split; [|repeat constructor].
    apply Forall_forall. intros x Hx. now apply inner_between, Hall.
Qed.

Lemma sort_Forall (P : string -> Prop) l : Forall P l -> Forall P (sort l).
Proof.
  unfold sort. intros H.
  now rewrite (merge_sort_Permutation String.le l).
Qed.

(** Sorting the chain with one more inner component at its end: the
    detector comes first, the source last, the rest sorted between. *)
Lemma sort_chain mid g :
  Forall (fun x => is_inner x = true) (mid ++ [g]) ->
  sort (("Source" :: mid ++ ["Detector"]) ++ [g])
  = "Detector" :: sort (mid ++ [g]) ++ ["Source"].
Proof.
  intros Hall.
  apply (Sorted_unique String.le).
  - apply Sorted_merge_sort, _.
  - apply StronglySorted_Sorted, sorted_between.
    + apply StronglySorted_merge_sort; apply _.
    + now apply sort_Forall.
  - unfold sort. rewrite !merge_sort_Permutation.
    rewrite <- (Permutation_cons_append (mid ++ [g]) "Source").
    cbn [app]. rewrite <- app_assoc. cbn [app].
    rewrite <- (Permutation_middle mid [g] "Detector").
    apply perm_swap.
Qed.

(** The two item assignments of the swap, on a list with its ends. *)
Lemma swap_ends (a : string) (m : list string) (b : string) :
  <[length (b :: m ++ [b]) - 1 := a]> (<[0 := b]> (a :: m ++ [b]))
  = b :: m ++ [a].
Proof.
  cbn [length]. rewrite length_app. cbn [length].
  replace (S (length m + 1) - 1) with (S (length m + 0)) by lia.
  change (<[S (length m + 0) := a]> (<[0 := b]> (a :: m ++ [b])))
    with (b :: <[length m + 0 := a]> (m ++ [b])).
  now rewrite insert_app_r.
Qed.

(** An operation on the list goes through when the list it leaves is
    not empty: the observer reads its first component at most. *)
Lemma set_components_returns l (st : setup) :
  l ≠ [] ->
  exists st',
    set_components l st = Returned st'
    /\ setup_components st' = l
    /\ sample_added st' = sample_added st
    /\ add_sample_active st' = add_sample_active st
    /\ (sample_added st = false -> head l = Some (sample_relative_to st')).
Proof.
  intros Hl. unfold set_components, on_setup_components.
  cbn [sample_added with_components setup_components].
  destruct l as [|x l]; [congruence|].
  destruct (sample_added st) eqn:E; cbn; eexists;
    (split; [reflexivity|]); cbn; repeat split; auto; discriminate.
Qed.

(** The components of the chain after a grating was added. *)
Lemma add_grating_components observer mid g (st : setup) :
  setup_components st = "Source" :: mid ++ ["Detector"] ->
  Forall (fun x => is_inner x = true) (mid ++ [g]) ->
  exists st',
    on_grating_checkbox_active observer true g st = Returned st'
    /\ setup_components st' = "Source" :: sort (mid ++ [g]) ++ ["Detector"]
    /\ sample_added st' = sample_added st
    /\ add_sample_active st' = add_sample_active st
    /\ (sample_added st = false -> sample_relative_to st' = "Source").
Proof.
  intros Hl Hall. unfold on_grating_checkbox_active.
  destruct (set_components_returns (setup_components st ++ [g]) st)
    as (st1 & -> & Hc1 & Hs1 & Ha1 & _); [rewrite Hl; discriminate|].
  cbn [and_then]. rewrite Hc1, Hl, (sort_chain mid g Hall).
  destruct (set_components_returns
              ("Detector" :: sort (mid ++ [g]) ++ ["Source"]) st1)
    as (st2 & -> & Hc2 & Hs2 & Ha2 & _); [discriminate|].
  cbn [and_then]. rewrite Hc2. cbn [head].
  rewrite last_cons, last_snoc.
  destruct (set_components_returns
              (<[0 := "Source"]>
                 ("Detector" :: sort (mid ++ [g]) ++ ["Source"])) st2)
    as (st3 & -> & Hc3 & Hs3 & Ha3 & _); [discriminate|].
  cbn [and_then]. rewrite Hc3.
  change (<[0 := "Source"]>
            ("Detector" :: sort (mid ++ [g]) ++ ["Source"]))
    with ("Source" :: sort (mid ++ [g]) ++ ["Source"]).
  pose proof (swap_ends "Detector" (sort (mid ++ [g])) "Source") as Hswap.
  change (<[0 := "Source"]>
            ("Detector" :: sort (mid ++ [g]) ++ ["Source"]))
    with ("Source" :: sort (mid ++ [g]) ++ ["Source"]) in Hswap.
  rewrite Hswap.
  destruct (set_components_returns
              ("Source" :: sort (mid ++ [g]) ++ ["Detector"]) st3)
    as (st4 & -> & Hc4 & Hs4 & Ha4 & Hr4); [discriminate|].
  cbn [and_then]. eexists. split; [reflexivity|].
  destruct (String.eqb g "G0"); cbn -[sort];
    (split; [exact Hc4|]); (split; [congruence|]);
    (split; [congruence|]); intros Hno;
    (assert (sample_added st3 = false) as Hno3 by congruence);
    specialize (Hr4 Hno3); cbn in Hr4; congruence.
Qed.

Lemma gratings_of_sorted l :
  ascending (gratings_of (sort l)) = true.
Proof.
  apply ascending_StronglySorted, StronglySorted_filter_le.
  apply StronglySorted_merge_sort; apply _.
Qed.

Lemma gratings_of_sort_Permutation l :
  gratings_of (sort l) ≡ₚ gratings_of l.
Proof. unfold gratings_of, sort. now rewrite merge_sort_Permutation. Qed.

Lemma is_grating_inner g : is_grating g = true -> is_inner g = true.
Proof. unfold is_inner. now intros ->. Qed.

Lemma add_grating_chain mid g :
  is_grating g = true ->
  Forall (fun x => is_inner x = true) mid ->
  chain_inv ("Source" :: sort (mid ++ [g]) ++ ["Detector"]) = true
  /\ (strictly_ascending (gratings_of mid) = true -> g ∉ mid ->
      gratings_once ("Source" :: sort (mid ++ [g]) ++ ["Detector"]) = true).
Proof.
  intros Hg Hall. split.
  - apply chain_inv_spec. eexists. split; [reflexivity|].
    split; [|apply gratings_of_sorted].
    apply sort_Forall, Forall_app. split; [exact Hall|].
    repeat constructor. now apply is_grating_inner.
  - intros Hstrict Hnotin. rewrite gratings_once_chain.
    apply strictly_ascending_NoDup. split; [apply gratings_of_sorted|].
    rewrite gratings_of_sort_Permutation. unfold gratings_of.
    rewrite filter_app, filter_cons_True, filter_nil by exact Hg.
    apply strictly_ascending_NoDup in Hstrict as [_ Hnd].
    apply NoDup_app. split; [exact Hnd|]. split; [|apply NoDup_singleton].
    intros x [_ Hx]%list_elem_of_filter ->%list_elem_of_singleton.
    contradiction.
Qed.

(** *** Removing an inner component *)

Lemma remove_inner_components mid x :
  is_inner x = true ->
  remove_first x ("Source" :: mid ++ ["Detector"])
  = "Source" :: remove_first x mid ++ ["Detector"].
Proof.
  intros [Hs Hd]%inner_not_end. cbn [remove_first].
  rewrite (string_eqb_false "Source" x) by congruence. f_equal.
  destruct (decide (x ∈ mid)) as [Hin|Hnotin].
  - now apply remove_first_app.
  - rewrite (remove_first_notin x mid Hnotin). apply remove_first_notin.
    rewrite elem_of_app, list_elem_of_singleton. intros [?|?]; congruence.
Qed.

Lemma remove_inner_chain l x :
  is_inner x = true ->
  chain_inv l = true ->
  chain_inv (remove_first x l) = true
  /\ (gratings_once l = true -> gratings_once (remove_first x l) = true).
Proof.
  intros Hx (mid & -> & Hall & Hasc)%chain_inv_spec.
  rewrite (remove_inner_components mid x Hx). split.
  - apply chain_inv_spec. eexists. split; [reflexivity|].
    split; [now apply remove_first_Forall|].
    rewrite gratings_of_remove_first. destruct (is_grating x); [|exact Hasc].
    now apply ascending_StronglySorted, remove_first_StronglySorted,
      ascending_StronglySorted.
  - rewrite !gratings_once_chain, gratings_of_remove_first.
    destruct (is_grating x); [|auto].
    intros [Ha Hnd]%strictly_ascending_NoDup.
    apply strictly_ascending_NoDup. split.
    + now apply ascending_StronglySorted, remove_first_StronglySorted,
        ascending_StronglySorted.
    + now apply remove_first_NoDup.
Qed.

(** The list an operation leaves, whether its observer returns or
    raises. *)
Lemma set_components_components l (st : setup) :
  setup_components (state_of (set_components l st)) = l.
Proof.
  unfold set_components, on_setup_components.
  cbn [sample_added with_components setup_components].
  destruct (sample_added st); cbn; [reflexivity|].
  destruct l; reflexivity.
Qed.

(** Clearing the [add_sample] check box with the sample handler bound to
    it keeps the chain. *)
Lemma on_sample_checkbox_keeps_chain : keeps_chain on_sample_checkbox_active.
Proof.
  intros st Hinv. unfold on_sample_checkbox_active.
  destruct (bool_decide ("Sample" ∈ setup_components st)); cbn; [|auto].
  pose proof (set_components_components
                (remove_first "Sample" (setup_components st)) st) as Hc.
  destruct (set_components _ st) as [st1|e st1];
    cbn [and_then state_of with_sample_position with_sample_added
           setup_components] in *;
    rewrite Hc; now apply remove_inner_chain.
Qed.

(** *** The grating check box *)

Lemma components_available (b : bool) g (st : setup) :
  setup_components (if b then with_available_gratings g st else st)
  = setup_components st.
Proof. now destruct b. Qed.

(** C7: adding or removing a grating leaves the component chain a chain:
    source first, detector last, gratings (and the sample) between them
    with the gratings in the order G0, G1, G2, whether the handler returns
    or raises.  No grating is doubled when the one added was not in the
    chain, and an added grating is in the chain afterwards. *)
Theorem grating_checkbox_keeps_chain
    (observer : bool -> setup -> outcome setup)
    (state : bool) (grating : string) (st : setup) :
  keeps_chain observer ->
  is_grating grating = true ->
  chain_inv (setup_components st) = true ->
  let st' := state_of (on_grating_checkbox_active observer state grating st) in
  chain_inv (setup_components st') = true
  /\ (gratings_once (setup_components st) = true ->
      (state = true -> grating ∉ setup_components st) ->
      gratings_once (setup_components st') = true)
  /\ (state = true ->
      on_grating_checkbox_active observer state grating st = Returned st'
      /\ grating ∈ setup_components st').
Proof.
  intros Hobs Hg Hinv st'. subst st'. destruct state.
  - pose proof Hinv as (mid & Hl & Hall & Hasc)%chain_inv_spec.
    assert (Forall (fun x => is_inner x = true) (mid ++ [grating])) as Hall'.
    { apply Forall_app. split; [exact Hall|].
      repeat constructor. now apply is_grating_inner. }
    destruct (add_grating_components observer mid grating st Hl Hall')
      as (st' & -> & Hc & _).
    cbn [state_of]. rewrite Hc, Hl.
    destruct (add_grating_chain mid grating Hg Hall) as [Hchain Honce].
    split; [exact Hchain|]. split.
    + rewrite gratings_once_chain. intros Hstrict Hnew. apply Honce.
      * exact Hstrict.
      * intros Hin. apply (Hnew eq_refl).
        apply list_elem_of_further, elem_of_app. now left.
    + intros _. split; [reflexivity|].
      apply list_elem_of_further, elem_of_app. left.
      unfold sort. rewrite merge_sort_Permutation.
      apply elem_of_app. right. apply list_elem_of_here.
  - unfold on_grating_checkbox_active.
    destruct (bool_decide (grating ∈ setup_components st));
      [|cbn; split; [exact Hinv|]; split; [auto | discriminate]].
    destruct (remove_inner_chain (setup_components st) grating
                (is_grating_inner _ Hg) Hinv) as [Hchain Honce].
    pose proof Hinv as (mid & Hl & _)%chain_inv_spec.
    destruct (set_components_returns
                (remove_first grating (setup_components st)) st)
      as (st1 & -> & Hc1 & _).
    { rewrite Hl, (remove_inner_components mid grating
                     (is_grating_inner _ Hg)). discriminate. }
    cbn [and_then]. rewrite <- Hc1 in Hchain, Honce.
    assert (chain_inv
              (setup_components
                 (state_of (set_add_sample_active observer false st1))) = true
            /\ (gratings_once (setup_components st1) = true ->
                gratings_once
                  (setup_components
                     (state_of (set_add_sample_active observer false st1)))
                = true)) as [Hchain2 Honce2].
    { unfold set_add_sample_active.
      destruct (Bool.eqb (add_sample_active st1) false); [cbn; auto|].
      apply (Hobs (with_add_sample_active false st1)). exact Hchain. }
    destruct (set_add_sample_active observer false st1) as [st2|e st2];
      cbn [state_of and_then] in *.
    + destruct (head (setup_components st2)) as [first|];
        cbn [state_of]; rewrite ?components_available;
        cbn [with_sample_relative_to setup_components];
        (split; [exact Hchain2|]); (split; [auto | discriminate]).
    + split; [exact Hchain2|]. split; [auto | discriminate].
Qed.

Lemma grating_checkbox_keeps_chain_witness :
  chain_inv
    (setup_components
       (state_of
          (on_grating_checkbox_active on_sample_checkbox_active true "G0"
             two_gratings))) = true
  /\ chain_inv
       (setup_components
          (state_of
             (on_grating_checkbox_active on_sample_checkbox_active false "G2"
                two_gratings))) = true.
Proof.
  split.
  - apply (proj1 (grating_checkbox_keeps_chain on_sample_checkbox_active
                    true "G0" two_gratings on_sample_checkbox_keeps_chain
                    eq_refl eq_refl)).
  - apply (proj1 (grating_checkbox_keeps_chain on_sample_checkbox_active
                    false "G2" two_gratings on_sample_checkbox_keeps_chain
                    eq_refl eq_refl)).
Defined.

(** The chains of the witness, computed. *)
Example grating_checkbox_chains :
  setup_components
    (state_of (on_grating_checkbox_active on_sample_checkbox_active true "G0"
                 two_gratings))
  = ["Source"; "G0"; "G1"; "G2"; "Detector"]
  /\ setup_components
       (state_of (on_grating_checkbox_active on_sample_checkbox_active false
                    "G2" two_gratings))
     = ["Source"; "G1"; "Detector"].
Proof. split; reflexivity. Qed.

End ChainFacts.

(** * Further properties of the code *)

(** ** Number inputs *)

Section NumberInputFacts.
Import PyStr FloatInput.

Lemma re_sub_pattern_app s t :
  re_sub_pattern (s +:+ t) = re_sub_pattern s +:+ re_sub_pattern t.
Proof.
  induction s as [|c s IH]; [reflexivity|].
  rewrite app_cons. cbn [re_sub_pattern].
  destruct (is_digit c); [rewrite app_cons|]; now rewrite IH.
Qed.

Lemma re_sub_pattern_idem s :
  re_sub_pattern (re_sub_pattern s) = re_sub_pattern s.
Proof.
  induction s as [|c s IH]; [reflexivity|]. cbn.
  destruct (is_digit c) eqn:E; [cbn; rewrite E|]; now rewrite IH.
Qed.

Lemma count_point_contains s :
  contains "." s = false -> count "." s = 0.
Proof.
  intros H. destruct (count "." s) eqn:E; [reflexivity|].
  assert (contains "." s = true) by (apply contains_char_count; lia).
  congruence.
Qed.

(** [split(".", 1)] by cases: no point and one piece, or a point and the
    two pieces around the first one. *)
Lemma split1_point_cases s :
  (contains "." s = false /\ split1 "." s = [s])
  \/ (contains "." s = true
      /\ exists a b, split1 "." s = [a; b] /\ s = a +:+ String "." b).
Proof.
  induction s as [|c s IH]; [now left|].
  cbn [contains startswith split1].
  destruct (Ascii.eqb_spec c "."%char) as [->|Hne].
  - right. split; [reflexivity|]. now exists EmptyString, s.
  - assert (Ascii.eqb "." c = false) as ->
      by (apply Ascii.eqb_neq; congruence).
    cbn [andb orb].
    destruct IH as [[Hc ->] | (Hc & a & b & -> & ->)].
    + now left.
    + right. split; [exact Hc|]. now exists (String c a), b.
Qed.

(** What [FloatInput.insert_text] hands on for a text without a point:
    the digits of the substring, and one point where its first point
    was. *)
Lemma filtered_without_point substring :
  let s := String.concat "." (map re_sub_pattern (split1 "." substring)) in
  re_sub_pattern s = re_sub_pattern substring
  /\ count "." s = if contains "." substring then 1 else 0.
Proof.
  cbn zeta.
  destruct (split1_point_cases substring)
    as [[-> ->] | (-> & a & b & -> & ->)]; cbn [map String.concat].
  - split; [apply re_sub_pattern_idem|].
    apply digits_no_dot, re_sub_pattern_digits.
  - rewrite !re_sub_pattern_app, !count_app, !re_sub_pattern_idem.
    cbn [re_sub_pattern count]. 
    rewrite !digits_no_dot by apply re_sub_pattern_digits.
    split; reflexivity.
Qed.

(** X1: [IntInput.insert_text] keeps a text of digits a text of digits,
    whatever is inserted and wherever the cursor is. *)
Theorem int_insert_text_digits (w : widget) (substring : string) :
  IntInput.int_text (text w) = true ->
  IntInput.int_text (text (IntInput.insert_text substring w)) = true.
Proof.
  unfold IntInput.int_text, IntInput.insert_text, super_insert_text.
  cbn [text]. intros Hall.
  rewrite <- (take_drop (cursor w) (text w)), all_app in Hall.
  apply andb_prop in Hall as [Ht Hd].
  now rewrite !all_app, Ht, Hd, re_sub_pattern_digits.
Qed.

Lemma int_insert_text_digits_witness :
  IntInput.int_text
    (text (IntInput.insert_text "4x.2" {| text := "10"; cursor := 2 |}))
  = true.
Proof.
  apply (int_insert_text_digits {| text := "10"; cursor := 2 |} "4x.2").
  reflexivity.
Defined.

(** X2: no digit typed into a [FloatInput] is lost or moved: the digits
    of the new text are the digits before the cursor, the digits of the
    substring in their order, and the digits behind the cursor. *)
Theorem insert_text_keeps_digits (w : widget) (substring : string) :
  re_sub_pattern (text (insert_text substring w))
  = re_sub_pattern (take (cursor w) (text w))
    +:+ re_sub_pattern substring
    +:+ re_sub_pattern (drop (cursor w) (text w)).
Proof.
  unfold insert_text, super_insert_text. cbn [text].
  rewrite !re_sub_pattern_app. f_equal. f_equal.
  destruct (contains "." (text w)); [apply re_sub_pattern_idem|].
  apply filtered_without_point.
Qed.

(** X3: the number of points after [FloatInput.insert_text]: unchanged
    when the text had one, exactly one when it had none and the substring
    brings any, none otherwise. *)
Theorem insert_text_points (w : widget) (substring : string) :
  count "." (text (insert_text substring w))
  = if contains "." (text w) then count "." (text w)
    else if contains "." substring then 1 else 0.
Proof.
  unfold insert_text, super_insert_text. cbn [text].
  rewrite !count_app.
  pose proof (take_drop (cursor w) (text w)) as Hsplit.
  assert (count "." (take (cursor w) (text w))
          + count "." (drop (cursor w) (text w)) = count "." (text w)) as Hc
    by (now rewrite <- count_app, Hsplit).
  destruct (contains "." (text w)) eqn:E.
  - rewrite (digits_no_dot (re_sub_pattern substring))
      by apply re_sub_pattern_digits.
    lia.
  - apply count_point_contains in E.
    destruct (filtered_without_point substring) as [_ ->].
    destruct (contains "." substring); lia.
Qed.

End NumberInputFacts.

(** ** More on the distance panel *)

Section PanelFacts.
Import PyStr Distances.

(** The list object of the caller after [update]. *)
Lemma update_caller_list l dual_phase beam_geometry gi_geometry :
  (update l dual_phase beam_geometry gi_geometry).2 = remove_first "Sample" l.
Proof.
  unfold update.
  destruct (update_loop _ _ _ _) as [[cs bs] extra]. cbn [snd].
  destruct (bool_decide_reflect ("Sample" ∈ l)) as [Hin|Hnotin];
    [reflexivity|].
  symmetry. now apply remove_first_notin.
Qed.

(** The panel is the one of the list [update] works on. *)
Lemma update_panel l dual_phase beam_geometry gi_geometry :
  (update l dual_phase beam_geometry gi_geometry).1
  = let component_list := relevant_components l beam_geometry gi_geometry in
    let r := update_loop dual_phase beam_geometry gi_geometry component_list in
    {| added := r.1.1;
       bound := r.1.2;
       height :=
         if r.2 then (Z.of_nat (length component_list) * LINE_HEIGHT)%Z
         else ((Z.of_nat (length component_list) - 1) * LINE_HEIGHT)%Z |}.
Proof.
  unfold update. cbn zeta.
  now destruct (update_loop _ _ _ _) as [[cs bs] extra].
Qed.

Lemma remove_first_length x l :
  x ∈ l -> S (length (remove_first x l)) = length l.
Proof.
  induction l as [|y r IH]; [intros H; inversion H|].
  intros Hin. cbn. destruct (String.eqb_spec y x) as [->|Hne]; [reflexivity|].
  apply elem_of_cons in Hin as [->|Hin]; [contradiction|].
  cbn. now rewrite IH.
Qed.

Lemma relevant_components_sample l beam_geometry gi_geometry :
  "Sample" ∉ remove_first "Sample" l ->
  relevant_components (remove_first "Sample" l) beam_geometry gi_geometry
  = relevant_components l beam_geometry gi_geometry.
Proof.
  intros Hnone. unfold relevant_components.
  rewrite (bool_decide_eq_false_2 _ Hnone).
  destruct (bool_decide_reflect ("Sample" ∈ l)) as [Hin|Hnotin];
    [reflexivity|].
  now rewrite (remove_first_notin _ _ Hnotin).
Qed.

(** X4: [update] takes the first ['Sample'] out of the list it is handed,
    in place: the caller's list is one shorter when it held a sample and
    unchanged otherwise; and a list with one sample gives the panel of
    the list without it. *)
Theorem update_removes_sample l dual_phase beam_geometry gi_geometry :
  (update l dual_phase beam_geometry gi_geometry).2 = remove_first "Sample" l
  /\ ("Sample" ∈ l ->
      S (length (update l dual_phase beam_geometry gi_geometry).2) = length l)
  /\ ("Sample" ∉ l ->
      (update l dual_phase beam_geometry gi_geometry).2 = l)
  /\ ("Sample" ∉ remove_first "Sample" l ->
      (update (remove_first "Sample" l) dual_phase beam_geometry
         gi_geometry).1
      = (update l dual_phase beam_geometry gi_geometry).1).
Proof.
  rewrite update_caller_list.
  split; [reflexivity|]. split; [apply remove_first_length|].
  split; [apply remove_first_notin|].
  intros Hnone. rewrite !update_panel.
  now rewrite (relevant_components_sample _ _ _ Hnone).
Qed.

Example update_removes_sample_chain :
  (update ["Source"; "G1"; "Sample"; "G2"; "Detector"] false "cone" "free").2
  = ["Source"; "G1"; "G2"; "Detector"].
Proof. reflexivity. Qed.

Lemma has_extra_free distance_id : has_extra "free" distance_id = false.
Proof. unfold has_extra. apply andb_false_r. Qed.

Lemma distance_value_of_free dual_phase beam_geometry distance_id :
  distance_value_of dual_phase beam_geometry "free" distance_id
  = new_float_input distance_id.
Proof.
  unfold distance_value_of. cbn [String.eqb Ascii.eqb Bool.eqb negb].
  now rewrite !andb_false_r.
Qed.

Lemma update_loop_free dual_phase beam_geometry l :
  (update_loop dual_phase beam_geometry "free" l).1.2 = []
  /\ (update_loop dual_phase beam_geometry "free" l).2 = false
  /\ Forall (fun c => disabled (value c) = false)
       (update_loop dual_phase beam_geometry "free" l).1.1
  /\ length (update_loop dual_phase beam_geometry "free" l).1.1
     = length l - 1.
Proof.
  induction l as [|a l IH]; [cbn; auto|].
  destruct l as [|b r]; [cbn; auto|].
  rewrite update_loop_step, has_extra_free, distance_value_of_free.
  destruct (update_loop dual_phase beam_geometry "free" (b :: r))
    as [[cs bs] extra].
  cbn [fst snd] in *. destruct IH as (-> & -> & Hall & Hlen).
  split; [reflexivity|]. split; [reflexivity|].
  split; [constructor; [reflexivity | exact Hall]|].
  cbn [length] in *. lia.
Qed.

(** X5: in the free geometry, whatever the beam, every distance of the
    list (without the sample) has an input the user can fill, no input
    observes another, and the height is one line per input, which makes
    it minus one line for an empty list. *)
Theorem update_free l dual_phase beam_geometry :
  let p := (update l dual_phase beam_geometry "free").1 in
  let shown := remove_first "Sample" l in
  bound p = []
  /\ (forall w, w ∈ inputs p -> accepts_user_input w = true)
  /\ length (added p) = length shown - 1
  /\ height p = ((Z.of_nat (length shown) - 1) * LINE_HEIGHT)%Z.
Proof.
  cbn zeta. rewrite update_panel. cbn zeta.
  assert (relevant_components l beam_geometry "free"
          = remove_first "Sample" l) as ->.
  { unfold relevant_components. cbn [String.eqb Ascii.eqb Bool.eqb negb].
    rewrite andb_false_r.
    destruct (bool_decide_reflect ("Sample" ∈ l)); [reflexivity|].
    symmetry. now apply remove_first_notin. }
  destruct (update_loop_free dual_phase beam_geometry
              (remove_first "Sample" l)) as (Hb & He & Hall & Hlen).
  cbn [bound added height inputs]. rewrite He.
  split; [exact Hb|]. split; [|split; [exact Hlen | reflexivity]].
  intros w (c & -> & Hc)%list_elem_of_fmap.
  rewrite Forall_forall in Hall. unfold accepts_user_input.
  now rewrite (Hall c Hc).
Qed.

Example update_free_empty :
  height (update [] false "parallel" "free").1 = (-35)%Z
  /\ added (update [] false "parallel" "free").1 = [].
Proof. split; reflexivity. Qed.

Lemma has_extra_sym distance_id : has_extra "sym" distance_id = false.
Proof. unfold has_extra. apply andb_false_r. Qed.

Lemma update_loop_sym_bound dual_phase beam_geometry l :
  (update_loop dual_phase beam_geometry "sym" l).1.2 = [].
Proof.
  induction l as [|a l IH]; [reflexivity|].
  destruct l as [|b r]; [reflexivity|].
  rewrite update_loop_step, has_extra_sym.
  now destruct (update_loop dual_phase beam_geometry "sym" (b :: r))
    as [[cs bs] extra].
Qed.

(** X6: for a cone beam in the symmetric geometry no input observes
    another, and an input of the panel is disabled exactly when it is the
    upstream-to-G1 distance ([distance_source_g1] or [distance_g0_g1]) or
    it is [distance_g1_g2] without [dual_phase]. *)
Theorem update_cone_sym l dual_phase :
  let p := (update l dual_phase "cone" "sym").1 in
  bound p = []
  /\ forall w, w ∈ inputs p ->
       (disabled w = true
        <-> id w = "distance_source_g1" \/ id w = "distance_g0_g1"
            \/ (id w = "distance_g1_g2" /\ dual_phase = false)).
Proof.
  cbn zeta. rewrite update_panel. cbn zeta. cbn [bound inputs added].
  split; [apply update_loop_sym_bound|].
  intros w Hw. apply update_loop_inputs in Hw.
  destruct Hw as [(a & b & ->) | [-> | ->]].
  - rewrite id_distance_value_of. unfold distance_value_of.
    cbn [String.eqb Ascii.eqb Bool.eqb negb andb].
    destruct (String.eqb_spec (distance_id_of a b) "distance_g1_g2")
      as [E|E].
    { rewrite E. destruct dual_phase; cbn; split.
      - discriminate.
      - intros [H|[H|[_ H]]]; discriminate.
      - auto.
      - reflexivity. }
    destruct (String.eqb_spec (distance_id_of a b) "distance_source_g1")
      as [E1|E1]; [cbn; split; [auto | reflexivity]|].
    destruct (String.eqb_spec (distance_id_of a b) "distance_g0_g1")
      as [E2|E2]; [cbn; split; [auto | reflexivity]|].
    cbn. split; [discriminate|].
    intros [?|[?|[? _]]]; contradiction.
  - cbn. split; [discriminate|]. intros [?|[?|[? _]]]; discriminate.
  - cbn. split; [discriminate|]. intros [?|[?|[? _]]]; discriminate.
Qed.

Example update_cone_sym_chain :
  map (fun w => (id w, disabled w))
    (inputs (update ["Source"; "G0"; "G1"; "G2"; "Detector"] false
               "cone" "sym").1)
  = [("distance_source_g0", false); ("distance_g0_g1", true);
     ("distance_g1_g2", true); ("distance_g2_detector", false)].
Proof. reflexivity. Qed.

Lemma has_extra_geometry gi_geometry distance_id :
  has_extra gi_geometry distance_id = true ->
  gi_geometry = "conv" \/ gi_geometry = "inv".
Proof.
  unfold has_extra. intros [_ H]%andb_prop.
  apply orb_prop in H as [H|H]; apply String.eqb_eq in H; auto.
Qed.

Lemma update_loop_bound_pairs dual_phase beam_geometry gi_geometry cl a b :
  (a, b) ∈ (update_loop dual_phase beam_geometry gi_geometry cl).1.2 ->
  (b, a) ∈ (update_loop dual_phase beam_geometry gi_geometry cl).1.2
  /\ a ∈ map id (map value
                   (update_loop dual_phase beam_geometry gi_geometry cl).1.1)
  /\ b ∈ map id (map value
                   (update_loop dual_phase beam_geometry gi_geometry cl).1.1)
  /\ (gi_geometry = "conv" \/ gi_geometry = "inv").
Proof.
  induction cl as [|x cl IH]; [intros H; inversion H|].
  destruct cl as [|y r]; [intros H; inversion H|].
  rewrite update_loop_step.
  destruct (update_loop dual_phase beam_geometry gi_geometry (y :: r))
    as [[cs bs] extra].
  cbn [fst snd] in IH. cbn zeta.
  destruct (has_extra gi_geometry (distance_id_of x y)) eqn:E;
    cbn [fst snd map value].
  - rewrite !elem_of_cons, id_distance_value_of.
    pose proof (has_extra_geometry _ _ E) as Hgi.
    intros [[= -> ->] | [[= -> ->] | H]].
    + auto 10.
    + auto 10.
    + destruct (IH H) as (H1 & H2 & H3 & H4). auto 10.
  - intros H. destruct (IH H) as (H1 & H2 & H3 & H4).
    rewrite !elem_of_cons. auto.
Qed.

(** X7: the observers [update] binds come in pairs, each input of a pair
    observing the other; both are inputs of the panel; and there are none
    outside the converging and inverse geometries. *)
Theorem update_bound_pairs l dual_phase beam_geometry gi_geometry a b :
  (a, b) ∈ bound (update l dual_phase beam_geometry gi_geometry).1 ->
  (b, a) ∈ bound (update l dual_phase beam_geometry gi_geometry).1
  /\ a ∈ map id (inputs (update l dual_phase beam_geometry gi_geometry).1)
  /\ b ∈ map id (inputs (update l dual_phase beam_geometry gi_geometry).1)
  /\ (gi_geometry = "conv" \/ gi_geometry = "inv").
Proof.
  rewrite update_panel. cbn zeta. unfold inputs. cbn [bound added].
  apply update_loop_bound_pairs.
Qed.

Lemma update_bound_pairs_witness :
  ("distance_g0_g2", "distance_g0_g1")
  ∈ bound (update ["Source"; "G0"; "G1"; "G2"; "Detector"] true
             "cone" "inv").1.
Proof.
  apply (update_bound_pairs ["Source"; "G0"; "G1"; "G2"; "Detector"] true
           "cone" "inv" "distance_g0_g1" "distance_g0_g2").
  vm_compute. apply list_elem_of_here.
Defined.

End PanelFacts.

(** ** More on the linked pair *)

Section LinkedPairFacts.
Import Distances LinkedPair.

Local Arguments String.eqb : simpl never.

Ltac event_cases :=
  repeat match goal with
         | |- context [String.eqb ?a ?b] =>
             destruct (String.eqb_spec a b); subst;
             cbn in *; unfold on_text; cbn in *
         | H : context [String.eqb ?a ?b] |- _ =>
             destruct (String.eqb_spec a b); subst;
             cbn in *; unfold on_text; cbn in *
         end;
  try congruence.

(** A text event in one piece. *)
Lemma text_event_closed p s v :
  text_event s v p
  = let x := get s p in
    let y := get (other s) p in
    if String.eqb (text x) v then p
    else if String.eqb v "" then
      put (other s) (set_disabled false y) (put s (set_text v x) p)
    else if distance_fixed p then
      if String.eqb (text y) "" then
        put_fixed true
          (put (other s) (set_disabled true y) (put s (set_text v x) p))
      else
        put_fixed false
          (put (other s) (set_disabled false y)
             (put s (set_disabled false (set_text v x)) p))
    else
      put_fixed true
        (put (other s) {| id := id y; text := ""; disabled := true |}
           (put s (if String.eqb (text y) "" then set_text v x
                   else set_disabled false (set_text v x)) p)).
Proof.
  destruct p as [[i1 t1 d1] [i2 t2 d2] fx].
  unfold text_event. destruct s, fx; cbn; unfold on_text; cbn;
    event_cases; reflexivity.
Qed.

Ltac sound_cases :=
  repeat match goal with
         | H : true = true -> _ |- _ => specialize (H eq_refl)
         | H : _ /\ _ |- _ => destruct H
         | H : negb (String.eqb ?a ?b) = true |- _ =>
             destruct (String.eqb_spec a b); cbn in H; [discriminate H|]
         | |- context [String.eqb ?a ?b] =>
             destruct (String.eqb_spec a b); subst; cbn
         end.

Lemma text_event_sound near_id far_id p s v :
  pair_sound near_id far_id p -> pair_sound near_id far_id (text_event s v p).
Proof.
  rewrite text_event_closed.
  unfold pair_sound, has_text.
  destruct p as [[i1 t1 d1] [i2 t2 d2] fx].
  cbn [near far id text disabled distance_fixed get].
  intros (Hn & Hf & H1 & H2 & H3). subst i1 i2.
  destruct s; cbn [get other near far text distance_fixed];
    cbn zeta;
    [destruct (String.eqb_spec t1 v) | destruct (String.eqb_spec t2 v)];
    try (repeat split; assumption);
    (destruct (String.eqb_spec v ""); [subst v|]);
    try destruct fx;
    try (destruct (String.eqb_spec t1 ""));
    try (destruct (String.eqb_spec t2 ""));
    subst; cbn;
    (split; [reflexivity|]); (split; [reflexivity|]);
    repeat split; intros; cbn in *;
    sound_cases; cbn in *; try congruence; auto;
    destruct d1, d2; intuition congruence.
Qed.

Lemma reachable_sound near_id far_id p :
  reachable near_id far_id p -> pair_sound near_id far_id p.
Proof.
  induction 1 as [fixed | p s v _ IH].
  - unfold pair_sound, has_text. cbn.
    repeat split; intros;
      first [ congruence
            | match goal with
              | H : negb _ = true |- _ => vm_compute in H; discriminate H
              end ].
  - now apply text_event_sound.
Qed.

(** X8: however the texts of a linked pair were set since [update]
    created it, the pair never locks the user out: the two inputs are
    never both disabled, a disabled input always has a partner that holds
    a value, and [distance_fixed] is down whenever both hold one. *)
Theorem linked_pair_never_locked near_id far_id p :
  reachable near_id far_id p ->
  (disabled (near p) = false \/ disabled (far p) = false)
  /\ (disabled (near p) = true -> has_text Far p = true)
  /\ (disabled (far p) = true -> has_text Near p = true)
  /\ (has_text Near p = true -> has_text Far p = true ->
      distance_fixed p = false).
Proof.
  intros (_ & _ & H1 & H2 & H3)%reachable_sound.
  split; [|split; [|split]].
  - destruct (disabled (near p)); [|now left].
    right. now apply H1.
  - intros H. now apply H1.
  - intros H. now apply H2.
  - exact H3.
Qed.

Lemma linked_pair_never_locked_witness :
  disabled
    (near (text_event Far "250"
             (text_event Near "100"
                (fresh_pair "distance_source_g1" "distance_source_g2"
                   false)))) = false
  \/ disabled
       (far (text_event Far "250"
               (text_event Near "100"
                  (fresh_pair "distance_source_g1" "distance_source_g2"
                     false)))) = false.
Proof.
  apply (linked_pair_never_locked "distance_source_g1" "distance_source_g2").
  apply reachable_event, reachable_event, reachable_fresh.
Defined.

Lemma user_events_at_most_one_witness :
  at_most_one_text
    (text_event Near "120"
       (fresh_pair "distance_g0_g1" "distance_g0_g2" true)) = true.
Proof.
  apply (user_events_at_most_one "distance_g0_g1" "distance_g0_g2").
  apply reach_event; [apply reach_fresh | reflexivity].
Defined.

(** X10: emptying the inputs the way [reset_distances] does brings a
    linked pair back to the state [update] created it in, both inputs
    empty and enabled; only [distance_fixed] keeps its value. *)
Theorem reset_pair_fresh near_id far_id p :
  reachable near_id far_id p ->
  reset_pair p = fresh_pair near_id far_id (distance_fixed p).
Proof.
  intros (Hn & Hf & H1 & H2 & H3)%reachable_sound.
  unfold reset_pair. rewrite !text_event_closed.
  unfold fresh_pair, new_float_input, has_text in *.
  destruct p as [[i1 t1 d1] [i2 t2 d2] fx].
  cbn [near far id text disabled distance_fixed get other] in *.
  subst i1 i2. cbn zeta.
  destruct (String.eqb_spec t2 "") as [->|Hfar]; cbn;
    destruct (String.eqb_spec t1 "") as [->|Hnear]; cbn;
    destruct d1, d2; cbn in *; sound_cases; cbn in *;
    try congruence; reflexivity.
Qed.

Lemma reset_pair_fresh_witness :
  reset_pair
    (text_event Near "100"
       (fresh_pair "distance_source_g1" "distance_source_g2" false))
  = fresh_pair "distance_source_g1" "distance_source_g2" true.
Proof.
  apply (reset_pair_fresh "distance_source_g1" "distance_source_g2"
           (text_event Near "100"
              (fresh_pair "distance_source_g1" "distance_source_g2" false))).
  apply reachable_event, reachable_fresh.
Defined.

End LinkedPairFacts.

(** ** More on the input-file reader *)

Section InputFilesFacts.
Import InputFile InputFiles.

(** Storing into a dictionary is storing into the empty one and filling
    in the rest from the dictionary. *)
Lemma store_all_union kvs (d : gmap string value) :
  store_all kvs d = store_all kvs ∅ ∪ d.
Proof.
  revert d; induction kvs as [|[k v] kvs IH]; intros d.
  - cbn. now rewrite (left_id_L ∅ (∪)).
  - rewrite !store_all_cons, (IH (<[k:=v]> d)), (IH (<[k:=v]> ∅)).
    rewrite insert_empty, (insert_union_singleton_l d).
    now rewrite (assoc_L (∪)).
Qed.

(** X11: [_load_input_file] returns, and what it returns is what the
    file alone gives, completed by the dictionary handed in: where both
    have a key, the entry of the file stays. *)
Theorem load_input_file_union (file_lines : list string) :
  exists r,
    _load_input_file file_lines ∅ = Some r
    /\ forall input_parameters,
        _load_input_file file_lines input_parameters
        = Some (r ∪ input_parameters).
Proof.
  eexists. split; [apply load_input_file_assignments|].
  intros d. rewrite load_input_file_assignments. f_equal.
  apply store_all_union.
Qed.

(** X12: reading a file a second time, into the dictionary the first
    reading gave, changes nothing. *)
Theorem load_input_file_twice
    (file_lines : list string) (input_parameters r : gmap string value) :
  _load_input_file file_lines input_parameters = Some r ->
  _load_input_file file_lines r = Some r.
Proof.
  rewrite !load_input_file_assignments. intros [= <-]. f_equal.
  rewrite (store_all_union _ (store_all _ input_parameters)).
  rewrite (store_all_union _ input_parameters).
  now rewrite (assoc_L (∪)), (idemp_L (∪)).
Qed.

Lemma load_input_file_twice_witness :
  _load_input_file ["-e"; "25"; "--dual"]
    (<["--dual" := Str "True"]> (<["-e" := Lines ["25"]]> ∅))
  = Some (<["--dual" := Str "True"]> (<["-e" := Lines ["25"]]> ∅)).
Proof.
  apply (load_input_file_twice ["-e"; "25"; "--dual"] ∅).
  reflexivity.
Defined.

Lemma assignments_leading pre rest :
  Forall no_dash pre -> assignments (pre ++ rest) = assignments rest.
Proof.
  induction 1 as [|l pre Hl _ IH]; [reflexivity|].
  cbn. unfold no_dash in Hl. now rewrite Hl.
Qed.

(** X13: lines in front of the first line with ['-'] are read over: a
    file gives what it gives without them, and a file without any line
    with ['-'] leaves the dictionary as it is. *)
Theorem load_input_file_leading_lines
    (pre rest : list string) (input_parameters : gmap string value) :
  Forall no_dash (map PyStr.strip pre) ->
  _load_input_file (pre ++ rest) input_parameters
  = _load_input_file rest input_parameters
  /\ _load_input_file pre input_parameters = Some input_parameters.
Proof.
  intros Hpre. rewrite !load_input_file_assignments, map_app.
  rewrite (assignments_leading _ _ Hpre).
  split; [reflexivity|].
  rewrite <- (app_nil_r (map PyStr.strip pre)).
  now rewrite (assignments_leading _ _ Hpre).
Qed.

Lemma load_input_file_leading_lines_witness :
  _load_input_file ["# setup"; ""; "-e"; "25"] (∅ : gmap string value)
  = _load_input_file ["-e"; "25"] ∅.
Proof.
  apply (load_input_file_leading_lines ["# setup"; ""] ["-e"; "25"] ∅).
  repeat constructor.
Defined.

Lemma load_input_files_snoc files f :
  load_input_files (files ++ [f])
  = match load_input_files files with
    | Some d => _load_input_file f d
    | None => None
    end.
Proof. unfold load_input_files. now rewrite foldl_app. Qed.

Lemma load_input_files_total files :
  exists d, load_input_files files = Some d.
Proof.
  induction files as [|f files [d IH]] using rev_ind; [now exists ∅|].
  rewrite load_input_files_snoc, IH, load_input_file_assignments. eauto.
Qed.

(** X14: loading several files returns, and the last file wins: the
    result is what the last file alone gives, completed by the result of
    the files before it. *)
Theorem load_input_files_last_wins (files : list (list string)) f :
  exists d r,
    load_input_files files = Some d
    /\ _load_input_file f ∅ = Some r
    /\ load_input_files (files ++ [f]) = Some (r ∪ d)
    /\ forall key,
        (r ∪ d) !! key
        = match r !! key with Some v => Some v | None => d !! key end.
Proof.
  destruct (load_input_files_total files) as [d Hd].
  exists d. eexists. split; [exact Hd|].
  split; [apply load_input_file_assignments|].
  split.
  - rewrite load_input_files_snoc, Hd, load_input_file_assignments.
    f_equal. apply store_all_union.
  - intros key. rewrite lookup_union.
    destruct (store_all _ ∅ !! key), (d !! key); reflexivity.
Qed.

Example load_input_files_two :
  load_input_files [["-e"; "25"; "-p0"; "2.4"]; ["-e"; "30"]]
  = Some (<["-e" := Lines ["30"]]> (<["-p0" := Lines ["2.4"]]> ∅)).
Proof. vm_compute. reflexivity. Qed.

End InputFilesFacts.

(** ** More on the component chain *)

Section ChainMoreFacts.
Import GiGUI Panel.
Import Distances (remove_first).

Local Arguments String.eqb : simpl never.

Lemma remove_first_app_r x l k :
  x ∉ l -> remove_first x (l ++ k) = l ++ remove_first x k.
Proof.
  induction l as [|y r IH]; [reflexivity|].
  intros [Hne Hr]%not_elem_of_cons. cbn.
  rewrite (string_eqb_false y x) by congruence. now rewrite IH.
Qed.

Lemma remove_first_here x l : remove_first x (x :: l) = l.
Proof. cbn. now rewrite String.eqb_refl. Qed.

Lemma remove_first_py_insert x i l :
  x ∉ l -> remove_first x (py_insert i x l) = l.
Proof.
  intros Hx. unfold py_insert.
  rewrite remove_first_app_r, remove_first_here; [apply firstn_skipn|].
  intros H. apply Hx. rewrite <- (firstn_skipn i l).
  apply elem_of_app. now left.
Qed.

Lemma py_insert_elem i x l : x ∈ py_insert i x l.
Proof.
  unfold py_insert. apply elem_of_app. right. apply list_elem_of_here.
Qed.

Lemma index_notin x l : x ∉ l -> index x l = None.
Proof.
  induction l as [|y r IH]; [reflexivity|].
  intros [Hne Hr]%not_elem_of_cons. cbn.
  rewrite (string_eqb_false y x) by congruence. now rewrite IH.
Qed.

Lemma first_char_nonempty s : s ≠ "" -> exists p, first_char s = Some p.
Proof. destruct s; [congruence | cbn; eauto]. Qed.

(** X15: adding the sample to a chain without one and removing it again
    gives the chain back, with [sample_added] off and no
    [sample_position]. *)
Theorem sample_add_remove (st : setup) :
  "Sample" ∉ setup_components st ->
  sample_relative_to st ∈ setup_components st ->
  sample_relative_position st ≠ "" ->
  exists st1 st2,
    on_sample_checkbox_active true st = Returned st1
    /\ on_sample_checkbox_active false st1 = Returned st2
    /\ setup_components st2 = setup_components st
    /\ sample_added st2 = false
    /\ sample_position st2 = None.
Proof.
  intros Hnone Hin Hpos.
  destruct (index_first _ _ Hin) as (i & Hidx & _).
  destruct (first_char_nonempty _ Hpos) as [p Hp].
  eexists. eexists. split; [apply (on_sample_added st i p Hidx Hp)|].
  unfold on_sample_checkbox_active. cbn [setup_components].
  rewrite bool_decide_eq_true_2 by apply py_insert_elem.
  split; [reflexivity|]. cbn.
  split; [|split; reflexivity].
  now apply remove_first_py_insert.
Qed.

Lemma sample_add_remove_witness :
  exists st1 st2,
    on_sample_checkbox_active true two_gratings = Returned st1
    /\ on_sample_checkbox_active false st1 = Returned st2
    /\ setup_components st2 = ["Source"; "G1"; "G2"; "Detector"].
Proof.
  assert (Hnone : "Sample" ∉ setup_components two_gratings).
  { apply (proj1 (bool_decide_eq_false _)). reflexivity. }
  assert (Hin : sample_relative_to two_gratings
                ∈ setup_components two_gratings).
  { apply list_elem_of_further, list_elem_of_here. }
  assert (Hpos : sample_relative_position two_gratings ≠ "")
    by discriminate.
  destruct (sample_add_remove two_gratings Hnone Hin Hpos)
    as (st1 & st2 & H1 & H2 & H3 & _).
  exists st1, st2. split; [exact H1|]. split; [exact H2|]. exact H3.
Defined.

(** X16: the two ways the sample handler raises.  When the reference is
    not in the chain, adding stops with [ValueError]: the chain is as it
    was, but [sample_added] is already on.  When the chain holds no
    sample, removing stops with [ValueError] and changes nothing. *)
Theorem sample_handler_raises (st : setup) :
  (sample_relative_to st ∉ setup_components st ->
   on_sample_checkbox_active true st
   = Raised ValueError (with_sample_added true st))
  /\ ("Sample" ∉ setup_components st ->
      on_sample_checkbox_active false st = Raised ValueError st).
Proof.
  unfold on_sample_checkbox_active. split.
  - intros Hnot. cbn [with_sample_added sample_relative_to setup_components].
    now rewrite (index_notin _ _ Hnot).
  - intros Hnot. now rewrite (bool_decide_eq_false_2 _ Hnot).
Qed.

End ChainMoreFacts.

(** ** The look-up table spinner *)

Section LookUpTableFacts.
Import Checks LookUpTable.

Lemma upper_char_idem c : upper_char (upper_char c) = upper_char c.
Proof. destruct c as [[] [] [] [] [] [] [] []]; reflexivity. Qed.

Lemma upper_idem s : upper (upper s) = upper s.
Proof.
  induction s as [|c s IH]; [reflexivity|].
  cbn [upper]. now rewrite upper_char_idem, IH.
Qed.

Local Arguments String.eqb : simpl never.
Local Arguments upper : simpl never.

(** The handler in one piece. *)
Lemma on_look_up_table_eq (values : list string) t p :
  on_look_up_table values {| look_up_table := t; photo_only := p |}
  = {| look_up_table := if bool_decide (upper t ∈ values)
                        then upper t else "NIST";
       photo_only := if String.eqb t "NIST" then p else false |}.
Proof.
  unfold on_look_up_table. cbn [look_up_table photo_only].
  destruct (String.eqb t "NIST"); cbn [negb look_up_table photo_only];
    destruct (bool_decide (upper t ∈ values)); reflexivity.
Qed.

(** X17: [on_look_up_table] leaves the spinner on ['NIST'] or on the
    upper-case form of its text, which then is one of the options;
    [photo_only] stays on only with ['NIST']; and running the handler
    again, as the change of the text it makes may do, changes nothing
    more. *)
Theorem on_look_up_table_normalises (values : list string) (st : lut) :
  let st' := on_look_up_table values st in
  (look_up_table st' = "NIST"
   \/ (look_up_table st' = upper (look_up_table st)
       /\ look_up_table st' ∈ values))
  /\ (photo_only st' = true ->
      look_up_table st = "NIST" /\ look_up_table st' = "NIST"
      /\ photo_only st = true)
  /\ on_look_up_table values st' = st'.
Proof.
  destruct st as [t p]. cbn zeta. rewrite !on_look_up_table_eq.
  cbn [look_up_table photo_only].
  destruct (String.eqb_spec t "NIST") as [->|Hne].
  - change (upper "NIST") with "NIST".
    assert ((if bool_decide ("NIST" ∈ values) then "NIST" else "NIST")
            = "NIST") as -> by now destruct (bool_decide _).
    rewrite String.eqb_refl. change (upper "NIST") with "NIST".
    assert ((if bool_decide ("NIST" ∈ values) then "NIST" else "NIST")
            = "NIST") as -> by now destruct (bool_decide _).
    repeat split; auto.
  - destruct (bool_decide_reflect (upper t ∈ values)) as [Hin|Hout].
    + split; [right; split; [reflexivity | exact Hin]|].
      split; [discriminate|].
      rewrite upper_idem, (bool_decide_eq_true_2 _ Hin).
      now destruct (String.eqb (upper t) "NIST").
    + split; [now left|]. split; [discriminate|].
      rewrite String.eqb_refl. change (upper "NIST") with "NIST".
      now destruct (bool_decide ("NIST" ∈ values)).
Qed.

Example on_look_up_table_lower :
  on_look_up_table ["NIST"; "X0H"] {| look_up_table := "x0h";
                                       photo_only := true |}
  = {| look_up_table := "X0H"; photo_only := false |}
  /\ on_look_up_table ["NIST"; "X0H"] {| look_up_table := "xcom";
                                          photo_only := true |}
     = {| look_up_table := "NIST"; photo_only := false |}.
Proof. split; reflexivity. Qed.

End LookUpTableFacts.

(** ** The sample and the distance panel *)

Section StaleSampleFacts.
Import GiGUI Panel.
Import Distances (remove_first).

(** X18: once the panel was updated on a chain that holds the sample,
    as [on_dual_phase_checkbox_active] does, the sample is gone from
    [setup_components] while [sample_added] still says it is there; the
    removal by the sample handler then raises [ValueError] and changes
    nothing. *)
Theorem panel_update_drops_sample
    (dual_phase : bool) (beam_geometry gi_geometry : string) (st : setup) :
  sample_added st = true ->
  "Sample" ∈ setup_components st ->
  "Sample" ∉ remove_first "Sample" (setup_components st) ->
  let st' := with_components (remove_first "Sample" (setup_components st)) st in
  distances_update dual_phase beam_geometry gi_geometry st = Returned st'
  /\ sample_added st' = true
  /\ on_sample_checkbox_active false st' = Raised ValueError st'.
Proof.
  intros Hadded Hin Hone st'. subst st'. unfold distances_update.
  rewrite (bool_decide_eq_true_2 _ Hin), update_caller_list.
  unfold on_setup_components. cbn [sample_added with_components].
  rewrite Hadded. cbn [negb]. split; [reflexivity|].
  split; [reflexivity|].
  unfold on_sample_checkbox_active. cbn [setup_components with_components].
  now rewrite (bool_decide_eq_false_2 _ Hone).
Qed.

Lemma panel_update_drops_sample_witness :
  distances_update false "cone" "conv"
    {| setup_components := ["Source"; "G1"; "Sample"; "G2"; "Detector"];
       sample_added := true;
       add_sample_active := true;
       sample_relative_to := "G1";
       sample_relative_position := "after";
       sample_position := Some "ag1";
       available_gratings := ["G0"; "G1"; "G2"] |}
  = Returned
      {| setup_components := ["Source"; "G1"; "G2"; "Detector"];
         sample_added := true;
         add_sample_active := true;
         sample_relative_to := "G1";
         sample_relative_position := "after";
         sample_position := Some "ag1";
         available_gratings := ["G0"; "G1"; "G2"] |}.
Proof.
  apply (proj1 (panel_update_drops_sample false "cone" "conv"
                  {| setup_components :=
                       ["Source"; "G1"; "Sample"; "G2"; "Detector"];
                     sample_added := true;
                     add_sample_active := true;
                     sample_relative_to := "G1";
                     sample_relative_position := "after";
                     sample_position := Some "ag1";
                     available_gratings := ["G0"; "G1"; "G2"] |}
                  eq_refl
                  ltac:(do 2 apply list_elem_of_further;
                        apply list_elem_of_here)
                  ltac:(apply (proj1 (bool_decide_eq_false _));
                        reflexivity))).
Defined.

End StaleSampleFacts.

(** ** The input check of the geometry *)

Section CheckFacts.
Import Checks.

Context {value : Type}.

Lemma check_grating_types_passed
    (k : check_collaborators value) parameters gratings :
  check_grating_types k parameters gratings = None ->
  forall grating,
    grating ∈ gratings ->
    active k (grating +:+ "_set") = true ->
    exists t,
      parameters !! ("type_" +:+ grating) = Some t /\ truthy k t = true.
Proof.
  induction gratings as [|g gs IH]; intros Hnone grating Hin Hact.
  - inversion Hin.
  - cbn [check_grating_types] in Hnone.
    apply elem_of_cons in Hin as [->|Hin].
    + rewrite Hact in Hnone.
      destruct (parameters !! ("type_" +:+ g)) as [t|]; [|discriminate].
      destruct (truthy k t) eqn:Ht; [eauto | discriminate].
    + apply IH; [|exact Hin|exact Hact].
      destruct (active k (g +:+ "_set")); [|exact Hnone].
      destruct (parameters !! ("type_" +:+ g)) as [t|]; [|discriminate].
      destruct (truthy k t); [exact Hnone | discriminate].
Qed.

(** X19: when [check_geometry_input] returns [True], no error popup was
    shown, and either an exception other than [InputError] was raised
    inside the check and lost in the [return] of its [finally] clause,
    or the input is checked: the widgets were collected,
    ['design_energy'] is set in the collected parameters, every grating
    whose check box is active has a type, and
    [check_input.geometry_input] and [_set_widgets] returned. *)
Theorem check_geometry_input_passed
    (k : check_collaborators value) parameters parameters' message :
  check_geometry_input k parameters = (true, parameters', message) ->
  message = None
  /\ ((check_geometry_body k parameters).1 = Some OtherException
      \/ exists collected energy,
           collect_widgets k parameters = (None, collected)
           /\ collected !! "design_energy" = Some energy
           /\ truthy k energy = true
           /\ (forall grating,
                 grating ∈ ["g0"; "g1"; "g2"] ->
                 active k (grating +:+ "_set") = true ->
                 exists t,
                   collected !! ("type_" +:+ grating) = Some t
                   /\ truthy k t = true)
           /\ geometry_input k collected = (None, parameters')
           /\ set_widgets k parameters' = None).
Proof.
  unfold check_geometry_input, check_geometry_body.
  destruct (collect_widgets k parameters) as [[[msg|]|] collected] eqn:Hc;
    [discriminate | intros [= <- <-]; auto |].
  destruct (collected !! "design_energy") as [energy|] eqn:Hlookup;
    [|intros [= <- <-]; auto].
  destruct (truthy k energy) eqn:Henergy; cbn [negb]; [|discriminate].
  destruct (check_grating_types k collected ["g0"; "g1"; "g2"])
    as [[msg|]|] eqn:Htypes;
    [discriminate | intros [= <- <-]; auto |].
  destruct (geometry_input k collected) as [[[msg|]|] checked] eqn:Hrest;
    [discriminate | intros [= <- <-]; auto |].
  cbn [fst]. destruct (set_widgets k checked) as [[msg|]|] eqn:Hset;
    [discriminate | intros [= <- <-]; auto |].
  intros [= <- <-]. split; [reflexivity|]. right.
  exists collected, energy.
  split; [reflexivity|]. split; [exact Hlookup|]. split; [exact Henergy|].
  split; [now apply check_grating_types_passed|].
  split; [exact Hrest | exact Hset].
Qed.

(** X20: when the collected parameters hold no design energy (an empty
    input), the check returns [False] with the message of the popup, and
    [calculate_geometry] returns with nothing but the parameters
    changed: no result is reset, stored or moved to
    [previous_results]. *)
Theorem check_rejects_missing_energy
    (k : check_collaborators value) (c : GiGUI.collaborators value)
    (st : GiGUI.calc_state value) collected energy :
  collect_widgets k (GiGUI.parameters st) = (None, collected) ->
  collected !! "design_energy" = Some energy ->
  truthy k energy = false ->
  check_geometry_input k (GiGUI.parameters st)
  = (false, collected,
     Some "Input argument missing: 'design_energy' ('-e').")
  /\ GiGUI.calculate_geometry (with_check k c) st
     = (None,
        {| GiGUI.parameters := collected;
           GiGUI.current := GiGUI.current st;
           GiGUI.previous_results := GiGUI.previous_results st |}).
Proof.
  intros Hcollect Henergy Hfalse.
  assert (check_geometry_input k (GiGUI.parameters st)
          = (false, collected,
             Some "Input argument missing: 'design_energy' ('-e')."))
    as Hcheck.
  { unfold check_geometry_input, check_geometry_body.
    now rewrite Hcollect, Henergy, Hfalse. }
  split; [exact Hcheck|].
  unfold GiGUI.calculate_geometry, with_check.
  cbn [GiGUI.check_geometry_input]. now rewrite Hcheck.
Qed.

End CheckFacts.

Section CheckWitnesses.
Import Checks.

Lemma check_geometry_input_passed_witness :
  (check_geometry_body sample_check
     {[ "design_energy" := "25"; "type_g1" := "phase";
        "type_g2" := "abs" ]}).1 = Some OtherException
  \/ exists collected energy,
       collect_widgets sample_check
         {[ "design_energy" := "25"; "type_g1" := "phase";
            "type_g2" := "abs" ]} = (None, collected)
       /\ collected !! "design_energy" = Some energy
       /\ truthy sample_check energy = true
       /\ (forall grating,
             grating ∈ ["g0"; "g1"; "g2"] ->
             active sample_check (grating +:+ "_set") = true ->
             exists t,
               collected !! ("type_" +:+ grating) = Some t
               /\ truthy sample_check t = true)
       /\ geometry_input sample_check collected
          = (None, {[ "design_energy" := "25"; "type_g1" := "phase";
                      "type_g2" := "abs" ]})
       /\ set_widgets sample_check
            {[ "design_energy" := "25"; "type_g1" := "phase";
               "type_g2" := "abs" ]} = None.
Proof.
  assert (check_geometry_input sample_check
            ({[ "design_energy" := "25"; "type_g1" := "phase";
                "type_g2" := "abs" ]} : gmap string string)
          = (true,
             {[ "design_energy" := "25"; "type_g1" := "phase";
                "type_g2" := "abs" ]}, None)) as Hcheck
    by (vm_compute; reflexivity).
  exact (proj2 (check_geometry_input_passed sample_check _ _ _ Hcheck)).
Defined.

Lemma check_rejects_missing_energy_witness :
  GiGUI.calculate_geometry
    (with_check sample_check GiGUI.failing_collaborators)
    {| GiGUI.parameters := {[ "design_energy" := "" ]};
       GiGUI.current := GiGUI.current GiGUI.computed_state;
       GiGUI.previous_results :=
         GiGUI.previous_results GiGUI.computed_state |}
  = (None,
     {| GiGUI.parameters := {[ "design_energy" := "" ]};
        GiGUI.current := GiGUI.current GiGUI.computed_state;
        GiGUI.previous_results :=
          GiGUI.previous_results GiGUI.computed_state |}).
Proof.
  assert (({[ "design_energy" := "" ]} : gmap string string)
          !! "design_energy" = Some "") as Henergy
    by (vm_compute; reflexivity).
  exact (proj2 (check_rejects_missing_energy sample_check
                  GiGUI.failing_collaborators
                  {| GiGUI.parameters := {[ "design_energy" := "" ]};
                     GiGUI.current := GiGUI.current GiGUI.computed_state;
                     GiGUI.previous_results :=
                       GiGUI.previous_results GiGUI.computed_state |}
                  {[ "design_energy" := "" ]} ""
                  eq_refl Henergy eq_refl)).
Defined.

End CheckWitnesses.

(** ** More on the grating check box *)

Section GratingMoreFacts.
Import GiGUI Panel.
Import Distances (remove_first).





(** The chain of the witness, computed: the sample has moved behind
    G2. *)
Example add_grating_sample_last_chain :
  setup_components
    (state_of
       (on_grating_checkbox_active on_sample_checkbox_active true "G0"
          {| setup_components := ["Source"; "G1"; "Sample"; "G2"; "Detector"];
             sample_added := true;
             add_sample_active := true;
             sample_relative_to := "G1";
             sample_relative_position := "after";
             sample_position := Some "ag1";
             available_gratings := ["G1"; "G2"] |}))
  = ["Source"; "G0"; "G1"; "G2"; "Sample"; "Detector"].
Proof. reflexivity. Qed.

Lemma remove_first_Permutation x l :
  x ∈ l -> x :: remove_first x l ≡ₚ l.
Proof.
  induction l as [|y r IH]; [intros H; inversion H|].
  intros Hin. cbn [remove_first].
  destruct (String.eqb_spec y x) as [->|Hne]; [reflexivity|].
  apply elem_of_cons in Hin as [->|Hin]; [contradiction|].
  rewrite perm_swap. constructor. now apply IH.
Qed.

(** Taking out of the sorted list the component that was put in gives
    the list back, when it was in order. *)
Lemma remove_first_sort mid g :
  StronglySorted String.le mid ->
  remove_first g (sort (mid ++ [g])) = mid.
Proof.
  intros Hs. apply (Sorted_unique String.le).
  - apply StronglySorted_Sorted, remove_first_StronglySorted.
    apply StronglySorted_merge_sort; apply _.
  - now apply StronglySorted_Sorted.
  - apply (Permutation_cons_inv (a := g)).
    rewrite remove_first_Permutation.
    + unfold sort. rewrite merge_sort_Permutation.
      now rewrite <- (Permutation_cons_append mid g).
    + unfold sort. rewrite merge_sort_Permutation.
      apply elem_of_app. right. apply list_elem_of_here.
Qed.

Lemma gratings_of_no_sample mid :
  Forall (fun x => is_inner x = true) mid ->
  "Sample" ∉ mid ->
  gratings_of mid = mid.
Proof.
  induction 1 as [|x l Hx Hl IH]; [reflexivity|].
  intros [Hne Hnot]%not_elem_of_cons. unfold gratings_of.
  assert (is_grating x = true) as Hg.
  { apply inner_cases in Hx as [-> | [-> | [-> | ->]]];
      try reflexivity. contradiction. }
  rewrite filter_cons_True by exact Hg. f_equal. now apply IH.
Qed.

(** X22: on a chain without sample, with the [add_sample] check box
    clear, adding a grating and removing it again both return and give
    the chain back. *)
Theorem grating_add_remove
    (observer : bool -> setup -> outcome setup) (grating : string)
    (st : setup) :
  chain_inv (setup_components st) = true ->
  "Sample" ∉ setup_components st ->
  add_sample_active st = false ->
  is_grating grating = true ->
  exists st1 st2,
    on_grating_checkbox_active observer true grating st = Returned st1
    /\ on_grating_checkbox_active observer false grating st1 = Returned st2
    /\ setup_components st2 = setup_components st
    /\ sample_relative_to st2 = "Source".
Proof.
  intros (mid & Hl & Hall & Hasc)%chain_inv_spec Hnone Hclear Hg.
  assert (Forall (fun x => is_inner x = true) (mid ++ [grating])) as Hall'.
  { apply Forall_app. split; [exact Hall|].
    repeat constructor. now apply is_grating_inner. }
  assert ("Sample" ∉ mid) as Hnone'.
  { intros Hin. apply Hnone. rewrite Hl.
    apply list_elem_of_further, elem_of_app. now left. }
  rewrite (gratings_of_no_sample mid Hall Hnone') in Hasc.
  apply ascending_StronglySorted in Hasc.
  destruct (add_grating_components observer mid grating st Hl Hall')
    as (st1 & Hrun & Hc1 & _ & Ha1 & _).
  exists st1. unfold on_grating_checkbox_active at 2.
  assert (grating ∈ setup_components st1) as Hin.
  { rewrite Hc1. apply list_elem_of_further, elem_of_app. left.
    unfold sort. rewrite merge_sort_Permutation.
    apply elem_of_app. right. apply list_elem_of_here. }
  rewrite (bool_decide_eq_true_2 _ Hin), Hc1.
  rewrite (remove_inner_components _ grating (is_grating_inner _ Hg)).
  rewrite (remove_first_sort mid grating Hasc).
  destruct (set_components_returns ("Source" :: mid ++ ["Detector"]) st1)
    as (st2 & -> & Hc2 & _ & Ha2 & _); [discriminate|].
  cbn [and_then]. unfold set_add_sample_active.
  rewrite Ha2, Ha1, Hclear. cbn [Bool.eqb and_then]. rewrite Hc2.
  cbn [head]. eexists. split; [exact Hrun|]. split; [reflexivity|].
  rewrite components_available. cbn [with_sample_relative_to setup_components].
  split; [now rewrite Hc2, Hl|].
  now destruct (String.eqb grating "G0").
Qed.

Lemma grating_add_remove_witness :
  exists st1 st2,
    on_grating_checkbox_active on_sample_checkbox_active true "G0"
      two_gratings = Returned st1
    /\ on_grating_checkbox_active on_sample_checkbox_active false "G0" st1
       = Returned st2
    /\ setup_components st2 = ["Source"; "G1"; "G2"; "Detector"].
Proof.
  assert ("Sample" ∉ setup_components two_gratings) as Hnone.
  { apply (proj1 (bool_decide_eq_false _)). reflexivity. }
  destruct (grating_add_remove on_sample_checkbox_active "G0" two_gratings
              eq_refl Hnone eq_refl eq_refl)
    as (st1 & st2 & H1 & H2 & H3 & _).
  exists st1, st2. split; [exact H1|]. split; [exact H2 | exact H3].
Defined.

End GratingMoreFacts.

(** ** More on [calculate_geometry] *)

Section CalculateMoreFacts.
Import GiGUI.

(** X23: whatever the collaborators do, [calculate_geometry] replaces
    [previous_results] by nothing but the results that were current, and
    only when these held a geometry; and [results] either stay as they
    were or belong to this run: their input is the one collected now,
    and their geometry is the one of [reset_results()] or the results of
    the [geometry.Geometry] object of this run. *)
Theorem calculate_geometry_results
    {value : Type} (c : collaborators value) (st : calc_state value) :
  let st' := (calculate_geometry c st).2 in
  (previous_results st' = previous_results st
   \/ (previous_results st' = current st
       /\ truthy (geometry (current st)) = true))
  /\ (current st' = current st
      \/ exists collected,
           _collect_widgets c (check_geometry_input c (parameters st)).2
           = (None, collected)
           /\ input (current st') = collect_input c collected
           /\ (geometry (current st') = geometry (reset_results c)
               \/ exists gi_geometry,
                    Geometry c collected = inr gi_geometry
                    /\ geometry (current st')
                       = geometry_results gi_geometry)).
Proof.
  unfold calculate_geometry, _collect_input.
  destruct (check_geometry_input c (parameters st)) as [[] checked];
    cbn [fst snd]; [|cbn; auto].
  destruct (_collect_widgets c checked) as [[e|] collected] eqn:Hcollect;
    [cbn; auto|].
  assert (forall r : results value,
            (if truthy (geometry (current st))
                && compare_dictionaries c (collect_input c collected)
                     (input (current st))
             then current st else previous_results st) = r ->
            r = previous_results st
            \/ (r = current st /\ truthy (geometry (current st)) = true))
    as Hprev.
  { intros r <-. destruct (truthy (geometry (current st))); cbn; auto.
    destruct (compare_dictionaries _ _ _); auto. }
  destruct (Geometry c collected) as [e|gi_geometry] eqn:Hgeometry.
  - cbn [snd previous_results current input geometry].
    split; [now apply Hprev|]. right. exists collected. auto.
  - destruct (update_parameters gi_geometry) as [e|updated];
      cbn [snd previous_results current input geometry];
      (split; [now apply Hprev|]); right; exists collected;
      (split; [reflexivity|]); (split; [reflexivity|]); right; eauto.
Qed.

(** X24: an exception that [_collect_widgets] raises inside
    [_collect_input], after the check has passed, leaves
    [calculate_geometry]; the results and the previous results are as
    they were, and the parameters are as the collection left them. *)
Theorem calculate_geometry_collect_raises
    {value : Type} (c : collaborators value) (st : calc_state value)
    (e : raised) (collected : gmap string value) :
  (check_geometry_input c (parameters st)).1 = true ->
  _collect_widgets c (check_geometry_input c (parameters st)).2
  = (Some e, collected) ->
  calculate_geometry c st
  = (Some e,
     {| parameters := collected;
        current := current st;
        previous_results := previous_results st |}).
Proof.
  intros Hcheck Hcollect. unfold calculate_geometry, _collect_input.
  destruct (check_geometry_input c (parameters st)) as [success checked].
  cbn [fst snd] in *. subst success. now rewrite Hcollect.
Qed.

Lemma calculate_geometry_collect_raises_witness :
  calculate_geometry
    {| check_geometry_input := fun parameters => (true, parameters);
       _collect_widgets :=
         fun parameters =>
           (Some OtherException, <["distance_g1_g2" := ""]> parameters);
       collect_input := fun parameters => parameters;
       compare_dictionaries := fun a b => negb (bool_decide (a = b));
       reset_results := {| input := ∅; geometry := ∅ |};
       Geometry := fun _ => inl (GeometryError "") |}
    computed_state
  = (Some OtherException,
     {| parameters := <["distance_g1_g2" := ""]> (parameters computed_state);
        current := current computed_state;
        previous_results := previous_results computed_state |}).
Proof.
  apply (calculate_geometry_collect_raises
           {| check_geometry_input := fun parameters => (true, parameters);
              _collect_widgets :=
                fun parameters =>
                  (Some OtherException,
                   <["distance_g1_g2" := ""]> parameters);
              collect_input := fun parameters => parameters;
              compare_dictionaries := fun a b => negb (bool_decide (a = b));
              reset_results := {| input := ∅; geometry := ∅ |};
              Geometry := fun _ => inl (GeometryError "") |}
           computed_state OtherException
           (<["distance_g1_g2" := ""]> (parameters computed_state))
           eq_refl eq_refl).
Defined.

End CalculateMoreFacts.
